(** * xSNUpdateSetBuilder: a shallow embedding of the update-set builder

    The development follows [global.xSNUpdateSetBuilder.js].  The builder
    object ([this]) is a record holding the captured-object map and the
    counter; the platform it talks to (GlideRecord, GlideUpdateSet,
    GlideUpdateManager2, gs) is a record of functions, and every call made to
    it is written to a trace, so that "before any lookup" and "restored
    before returning" are statements about that trace.

    Modelling choices:
    - a JavaScript argument is [JS.value]: [undefined], [null] or a string;
      ["" + v] is [JS.to_string], [JSUtil.nil]/[gs.nil] is [JS.nil];
    - [_capturedObjectMap] is a plain object used as a map from sys_id to
      table name.  [for (k in map)] walks own properties in insertion order
      and an assignment to an existing key keeps its position, so the map is
      an association list in insertion order; properties inherited from
      Object.prototype, and keys that are array indices (which an engine
      may enumerate first), are outside the model: a sys_id is a
      32-character identifier;
    - [_capturedObjectCount] is a natural number;
    - a thrown exception leaves every mutation made before it in place, so
      the monad returns the environment on both completions;
    - [captureArchivalRule] calls itself with no decreasing measure: it takes
      fuel and returns [None] when the fuel runs out. *)

From Stdlib Require Import String Ascii List Bool Arith Lia DecimalString.
Import ListNotations.
Open Scope string_scope.

(** ** JavaScript values *)

Module JS.

Inductive value : Type :=
| undefined
| null
| str (s : string).

(** ["" + v] *)
Definition to_string (v : value) : string :=
  match v with
  | undefined => "undefined"
  | null => "null"
  | str s => s
  end.

(** [JSUtil.nil(v)] and [gs.nil(v)]: null, undefined or the empty string. *)
Definition nil (v : value) : bool :=
  match v with
  | undefined => true
  | null => true
  | str s => s =? ""
  end.

(** Truthiness of a string: only the empty string is falsy. *)
Definition truthy (s : string) : bool := negb (s =? "").

(** [s.toUpperCase()] on the ASCII range. *)
Definition upper_ascii (c : ascii) : ascii :=
  let n := nat_of_ascii c in
  if Nat.leb 97 n && Nat.leb n 122 then ascii_of_nat (n - 32) else c.

Fixpoint toUpperCase (s : string) : string :=
  match s with
  | EmptyString => EmptyString
  | String c rest => String (upper_ascii c) (toUpperCase rest)
  end.

(** [s.startsWith(p)] *)
Definition startsWith (s p : string) : bool := String.prefix p s.

(** ["" + n] for a row count. *)
Definition of_nat (n : nat) : string := NilZero.string_of_uint (Nat.to_uint n).

End JS.

(** ** GlideRecord and the platform *)

(** A GlideRecord positioned on a row: [gr.sys_id], [gr.getTableName()] and
    the other elements by name, as strings ([""] for an empty element). *)
Record GlideRecord : Type := {
  sys_id : JS.value;
  getTableName : string;
  elements : list (string * string)
}.

Fixpoint assoc_get (l : list (string * string)) (k : string) : option string :=
  match l with
  | [] => None
  | (k', v) :: rest => if k' =? k then Some v else assoc_get rest k
  end.

(** ["" + gr.<name>] *)
Definition element (gr : GlideRecord) (name : string) : string :=
  match assoc_get (elements gr) name with
  | Some v => v
  | None => ""
  end.

(** [gr.<name>.nil()] *)
Definition element_nil (gr : GlideRecord) (name : string) : bool :=
  element gr name =? "".

(** Query conditions loaded on a GlideRecord before [query()]. *)
Inductive Condition : Type :=
| addQuery (field value : string)
| addNullQuery (field : string)
| addNotNullQuery (field : string)
| addEncodedQuery (q : string).

(** A GlideRecord with its conditions pre-loaded, not yet queried. *)
Record Query : Type := {
  q_table : string;
  q_conds : list Condition
}.

(** Calls made to the platform, most recent first in the trace. *)
Inductive Event : Type :=
| EvQuery (table : string) (conds : list Condition)
| EvGetRefRecord (gr : GlideRecord) (field : string)
| EvLog (msg : string)
| EvInsert (gr : GlideRecord)
| EvSetUpdateSet (sysId : string)
| EvSaveRecord (updateSet : string) (gr : GlideRecord).

(** The host platform, an opaque collaborator of the builder.  The builder
    only reads the record store; the one row it inserts is the update set
    created by [writeUpdateSet], which no later lookup of that call reads,
    so the rows of a query are a function of the table and the conditions. *)
Record Platform : Type := {
  (** rows of [gr.query()] in [next()] order *)
  pf_query : string -> list Condition -> list GlideRecord;
  (** [gr.<field>.getRefRecord()] *)
  pf_getRefRecord : GlideRecord -> string -> GlideRecord;
  (** [gr.isValidRecord()] *)
  pf_isValidRecord : GlideRecord -> bool;
  (** [gr.<field>.getDisplayValue()] *)
  pf_getDisplayValue : GlideRecord -> string -> string;
  (** [gs.getCurrentScopeName()] *)
  pf_getCurrentScopeName : JS.value;
  (** sys_id given to a row by [gr.insert()] *)
  pf_insert : GlideRecord -> string;
  (** whether [GlideUpdateSet.set(id)] takes effect *)
  pf_setUpdateSet : string -> bool;
  (** [GlideUpdateManager2.saveRecord(gr)]: [Some ex] when it throws [ex] *)
  pf_saveRecord : GlideRecord -> option string
}.

(** [gr.getEncodedQuery()] *)
Definition encode_condition (c : Condition) : string :=
  match c with
  | addQuery f v => f ++ "=" ++ v
  | addNullQuery f => f ++ "ISEMPTY"
  | addNotNullQuery f => f ++ "ISNOTEMPTY"
  | addEncodedQuery q => q
  end.

Definition getEncodedQuery (conds : list Condition) : string :=
  String.concat "^" (map encode_condition conds).

(** ** The builder object *)

Definition ObjectMap : Type := list (string * string).

(** [map[k] = v] *)
Fixpoint map_set (m : ObjectMap) (k v : string) : ObjectMap :=
  match m with
  | [] => [(k, v)]
  | (k', v') :: rest =>
      if k' =? k then (k', v) :: rest else (k', v') :: map_set rest k v
  end.

(** [!map[k]]: the key is absent or holds a falsy value. *)
Definition map_falsy (m : ObjectMap) (k : string) : bool :=
  match assoc_get m k with
  | Some v => negb (JS.truthy v)
  | None => true
  end.

Record Builder : Type := {
  _capturedObjectMap : ObjectMap;
  _capturedObjectCount : nat
}.

(** The environment a method runs in: the builder, the session's current
    update set and the trace of platform calls (most recent first). *)
Record Env : Type := {
  this : Builder;
  currentUpdateSet : string;
  trace : list Event
}.

(** [initialize] *)
Definition initialize : Builder :=
  {| _capturedObjectMap := []; _capturedObjectCount := 0 |}.

(** [getObjectCount] *)
Definition getObjectCount (b : Builder) : nat := _capturedObjectCount b.

(** Number of distinct keys of the captured-object map. *)
Definition distinct_keys (m : ObjectMap) : nat :=
  length (nodup string_dec (map fst m)).

(** ** Completions and the method monad *)

Inductive Completion (A : Type) : Type :=
| Normal (a : A)
| Throw (ex : string).
Arguments Normal {A} a.
Arguments Throw {A} ex.

Definition M (A : Type) : Type := Env -> Completion A * Env.

Definition ret {A} (a : A) : M A := fun e => (Normal a, e).

Definition throw {A} (ex : string) : M A := fun e => (Throw ex, e).

Definition bind {A B} (c : M A) (k : A -> M B) : M B :=
  fun e =>
    match c e with
    | (Normal a, e') => k a e'
    | (Throw ex, e') => (Throw ex, e')
    end.

Notation "x <- c1 ;; c2" := (bind c1 (fun x => c2))
  (at level 61, c1 at next level, right associativity).
Notation "c1 ;; c2" := (bind c1 (fun _ => c2))
  (at level 61, right associativity).

Definition emit (ev : Event) : M unit :=
  fun e => (Normal tt, {| this := this e;
                          currentUpdateSet := currentUpdateSet e;
                          trace := ev :: trace e |}).

Definition set_this (b : Builder) : M unit :=
  fun e => (Normal tt, {| this := b;
                          currentUpdateSet := currentUpdateSet e;
                          trace := trace e |}).

Definition get_this : M Builder := fun e => (Normal (this e), e).

(** [gs.log(msg)] *)
Definition gs_log (msg : string) : M unit := emit (EvLog msg).

(** [while (gr.next()) body] over the rows of a query. *)
Fixpoint while_next {A} (rows : list A) (body : A -> M unit) : M unit :=
  match rows with
  | [] => ret tt
  | r :: rest => body r ;; while_next rest body
  end.

(** ** Table names: [xSNUpdateSetBuilder._TABLES] *)

Module TABLES.
Definition SYS_SCOPE := "sys_scope".
Definition UPDATE_SET := "sys_update_set".
Definition CATALOG_ITEM := "sc_cat_item".
Definition CATALOG_ITEM_VARIABLE := "item_option_new".
Definition CATALOG_ITEM_VARIABLE_SET_M2M := "io_set_item".
Definition CATALOG_ITEM_VARIABLE_QUESTION_CHOICE := "question_choice".
Definition CATALOG_ITEM_UI_POLICY := "catalog_ui_policy".
Definition CATALOG_ITEM_UI_POLICY_ACTION := "catalog_ui_policy_action".
Definition CATALOG_ITEM_CLIENT_SCRIPT := "catalog_script_client".
Definition SYS_APPLICATION := "sys_app".
Definition SYS_PROPERTIES := "sys_properties".
Definition SYS_PROPERTIES_CATEGORY := "sys_properties_category".
Definition SYS_PROPERTIES_CATEGORY_ASSOC := "sys_properties_category_m2m".
Definition SYS_DB_OBJECT := "sys_db_object".
Definition SYS_DICTIONARY := "sys_dictionary".
Definition UI_VIEW := "sys_ui_view".
Definition SYS_EVENT := "sysevent_register".
Definition LIST_LAYOUT := "sys_ui_list".
Definition LIST_CONTROL := "sys_ui_list_control".
Definition FORM := "sys_ui_form".
Definition FORM_SECTION := "sys_ui_form_section".
Definition FORM_LAYOUT := "sys_ui_section".
Definition FORM_RELATED_LIST := "sys_ui_related_list".
Definition SYS_DOCUMENTATION := "sys_documentation".
Definition SYS_CHOICE := "sys_choice".
Definition SYS_SECURITY_ACL := "sys_security_acl".
Definition SYS_SECURITY_ACL_ROLE := "sys_security_acl_role".
Definition SYS_DICTIONARY_OVERRIDE := "sys_dictionary_override".
Definition SYS_SCRIPT := "sys_script".
Definition SYS_SCRIPT_CLIENT := "sys_script_client".
Definition SCRIPT_INCLUDE := "sys_script_include".
Definition UI_ACTION := "sys_ui_action".
Definition UI_POLICY := "sys_ui_policy".
Definition UI_POLICY_ACTION := "sys_ui_policy_action".
Definition DATA_POLICY := "sys_data_policy2".
Definition DATA_POLICY_RULE := "sys_data_policy_rule".
Definition UI_STYLE := "sys_ui_style".
Definition TABLE_VIEW_RULE := "sysrule_view".
Definition APPLICATION_MENU := "sys_app_application".
Definition APPLICATION_MENU_MODULE := "sys_app_module".
Definition DATABASE_VIEW := "sys_db_view".
Definition DATABASE_VIEW_TABLE := "sys_db_view_table".
Definition DATABASE_VIEW_TABLE_FIELD := "sys_db_view_table_field".
Definition ROLE := "sys_user_role".
Definition TABLE_NUMBER := "sys_number".
Definition ARCHIVE_RULE := "sys_archive".
Definition ARCHIVE_RULE_RELATED := "sys_archive_related".
End TABLES.

(** ** Internal functions *)

(** [_recordObject(gr)]; [None] is a null or undefined [gr]. *)
Definition _recordObject (gr : option GlideRecord) : M unit :=
  match gr with
  | None => ret tt
  | Some gr =>
      let id := JS.to_string (sys_id gr) in
      b <- get_this ;;
      if map_falsy (_capturedObjectMap b) id then
        set_this {| _capturedObjectMap :=
                      map_set (_capturedObjectMap b) id (getTableName gr);
                    _capturedObjectCount := S (_capturedObjectCount b) |} ;;
        gs_log ("Captured '" ++ getTableName gr ++ " object with sys_id '"
                ++ id ++ "'")
      else ret tt
  end.

(** [_flushObjectCache] *)
Definition _flushObjectCache : M unit :=
  set_this {| _capturedObjectMap := []; _capturedObjectCount := 0 |}.

Definition newline : string := String (ascii_of_nat 10) "".
Definition tab : string := String (ascii_of_nat 9) "".

Definition mkQuery (tbl : string) (conds : list Condition) : option Query :=
  Some {| q_table := tbl; q_conds := conds |}.

(** [try { body } catch (ex) { handler } finally { final }] *)
Definition try_catch_finally (body : M unit) (handler : string -> M unit)
    (final : M unit) : M unit :=
  fun e =>
    match body e with
    | (Normal _, e1) => final e1
    | (Throw ex, e1) =>
        match handler ex e1 with
        | (Normal _, e2) => final e2
        | (Throw ex', e2) =>
            match final e2 with
            | (Normal _, e3) => (Throw ex', e3)
            | (Throw ex'', e3) => (Throw ex'', e3)
            end
        end
    end.

(** The argument of [captureDataRecord]: null, undefined, a value that is not
    a GlideRecord, or a GlideRecord. *)
Inductive Argument : Type :=
| ArgNull
| ArgUndefined
| ArgOther
| ArgGlideRecord (gr : GlideRecord).

(** Methods that may not terminate: [None] when the fuel runs out. *)
Definition MF (A : Type) : Type := Env -> option (Completion A * Env).

Definition lift {A} (c : M A) : MF A := fun e => Some (c e).

Definition out_of_fuel {A} : MF A := fun _ => None.

Definition bindF {A B} (c : MF A) (k : A -> MF B) : MF B :=
  fun e =>
    match c e with
    | Some (Normal a, e') => k a e'
    | Some (Throw ex, e') => Some (Throw ex, e')
    | None => None
    end.

Fixpoint while_nextF {A} (rows : list A) (body : A -> MF unit) : MF unit :=
  match rows with
  | [] => lift (ret tt)
  | r :: rest => bindF (body r) (fun _ => while_nextF rest body)
  end.

(** A call of the public API with its arguments. *)
Inductive PublicCall : Type :=
| call_writeUpdateSet (updateSetName : JS.value)
| call_captureTableWithRelatedObjects (tblName : JS.value)
| call_captureServiceCatalogItem (catSysId : JS.value)
| call_captureDatabaseView (vName : JS.value)
| call_captureApplicationMenuAndModules (menuSysId : JS.value)
| call_captureScriptIncludeByName (scrName : JS.value)
| call_captureUserRole (roleName : JS.value)
| call_captureApplicationRecord (appName : JS.value)
| call_captureSystemPropertyCategoryWithAssociations (catName : JS.value)
| call_captureSystemProperty (propName : JS.value)
| call_captureEventRegistration (evtName : JS.value)
| call_captureDataRecordsFromTable (tblName queryCondition : JS.value)
| call_captureDataRecord (gr : Argument)
| call_captureACLsForTable (tblName : JS.value)
| call_captureACLsForTableAndField (tblName fieldName : JS.value)
| call_captureUIPolicesForTable (tblName : JS.value)
| call_captureDataPolicesForTable (tblName : JS.value)
| call_captureTableNumber (tblName : JS.value)
| call_captureListLayoutsForTable (tblName : JS.value)
| call_captureFormLayoutsForTable (tblName : JS.value)
| call_captureTableFieldAndAssociatedObjects (tblName fldName : JS.value)
| call_captureArchivalRule (ruleSysId : JS.value)
| call_captureCatalogUIPolicy (catUIPolicySysId : JS.value)
| call_captureServiceCatalogVariable (varSysId : JS.value).

(** Whether a required parameter of the call is nil.  The only optional
    parameter of the API is [queryCondition]. *)
Definition required_nil (c : PublicCall) : bool :=
  match c with
  | call_captureDataRecord ArgNull => true
  | call_captureDataRecord ArgUndefined => true
  | call_captureDataRecord _ => false
  | call_captureDataRecordsFromTable t _ => JS.nil t
  | call_captureACLsForTableAndField t f => JS.nil t || JS.nil f
  | call_captureTableFieldAndAssociatedObjects t f => JS.nil t || JS.nil f
  | call_writeUpdateSet v
  | call_captureTableWithRelatedObjects v
  | call_captureServiceCatalogItem v
  | call_captureDatabaseView v
  | call_captureApplicationMenuAndModules v
  | call_captureScriptIncludeByName v
  | call_captureUserRole v
  | call_captureApplicationRecord v
  | call_captureSystemPropertyCategoryWithAssociations v
  | call_captureSystemProperty v
  | call_captureEventRegistration v
  | call_captureACLsForTable v
  | call_captureUIPolicesForTable v
  | call_captureDataPolicesForTable v
  | call_captureTableNumber v
  | call_captureListLayoutsForTable v
  | call_captureFormLayoutsForTable v
  | call_captureArchivalRule v
  | call_captureCatalogUIPolicy v
  | call_captureServiceCatalogVariable v => JS.nil v
  end.

Section Methods.

Variable P : Platform.

(** *** Platform calls *)

(** [gr.query()] *)
Definition gr_query (tbl : string) (conds : list Condition)
  : M (list GlideRecord) :=
  emit (EvQuery tbl conds) ;; ret (pf_query P tbl conds).

(** [gr.get(sys_id)]: the row when found. *)
Definition gr_get (tbl id : string) : M (option GlideRecord) :=
  rows <- gr_query tbl [addQuery "sys_id" id] ;; ret (hd_error rows).

(** [gr.get(name, value)] *)
Definition gr_get_by (tbl name value : string) : M (option GlideRecord) :=
  rows <- gr_query tbl [addQuery name value] ;; ret (hd_error rows).

(** [gr.<field>.getRefRecord()] *)
Definition getRefRecord (gr : GlideRecord) (field : string) : M GlideRecord :=
  emit (EvGetRefRecord gr field) ;; ret (pf_getRefRecord P gr field).

(** [gr.insert()] on a new row of [tbl]: the row with its new sys_id. *)
Definition gr_insert (tbl : string) (els : list (string * string))
  : M GlideRecord :=
  let gr := {| sys_id := JS.str (pf_insert P {| sys_id := JS.null;
                                                getTableName := tbl;
                                                elements := els |});
               getTableName := tbl;
               elements := els |} in
  emit (EvInsert gr) ;; ret gr.

(** [gus.get()] *)
Definition gus_get : M string := fun e => (Normal (currentUpdateSet e), e).

(** [gus.set(id)] *)
Definition gus_set (id : string) : M unit :=
  emit (EvSetUpdateSet id) ;;
  if pf_setUpdateSet P id then
    fun e => (Normal tt, {| this := this e;
                            currentUpdateSet := id;
                            trace := trace e |})
  else ret tt.

(** [this._um.saveRecord(gr)]: writes [gr] to the current update set. *)
Definition um_saveRecord (gr : GlideRecord) : M unit :=
  match pf_saveRecord P gr with
  | Some ex => throw ex
  | None => us <- gus_get ;; emit (EvSaveRecord us gr)
  end.

(** *** Internal helpers *)

(** [_captureUIView(sys_id)] *)
Definition _captureUIView (sys_id : JS.value) : M unit :=
  if JS.nil sys_id then
    throw "xSNUpdateSetBuilder.captureUIViewsForTable: parameter 'sys_id' is nil!"
  else
    let sys_id := JS.to_string sys_id in
    b <- get_this ;;
    if map_falsy (_capturedObjectMap b) sys_id then
      uiv <- gr_get TABLES.UI_VIEW sys_id ;;
      match uiv with
      | None =>
          throw ("xSNUpdateSetBuilder.captureUIViewsForTable: No UI View found for sys_id '"
                 ++ sys_id ++ "'")
      | Some uiv =>
          gs_log ("Capturing UI View '" ++ element uiv "title" ++ "'") ;;
          _recordObject (Some uiv)
      end
    else ret tt.

(** [_captureUniqueGRObject(gr, callingMethod)].  The JavaScript function
    returns nothing and leaves [gr] positioned on the row; the row is
    returned here for the callers that read it afterwards. *)
Definition _captureUniqueGRObject (gr : option Query) (callingMethod : string)
  : M GlideRecord :=
  match gr with
  | None => throw "xSNUpdateSetBuilder._captureUniqueGRObject: parameter 'gr' is nil!"
  | Some q =>
      rows <- gr_query (q_table q) (q_conds q) ;;
      let getRowCount := length rows in
      match (if getRowCount =? 1 then hd_error rows else None)%nat with
      | Some row => _recordObject (Some row) ;; ret row
      | None =>
          if (getRowCount <? 1)%nat then
            throw (callingMethod ++ ": No " ++ q_table q ++ " found for query '"
                   ++ getEncodedQuery (q_conds q) ++ "'")
          else
            throw (callingMethod ++ ": found multiple (" ++ JS.of_nat getRowCount
                   ++ ") " ++ q_table q ++ " for provided query!")
      end
  end.

(** [_captureObjectsFromGRQuery(gr)] *)
Definition _captureObjectsFromGRQuery (gr : option Query) : M unit :=
  match gr with
  | None => throw "xSNUpdateSetBuilder._captureObjectsFromGRQuery: parameter 'gr' is nil!"
  | Some q =>
      rows <- gr_query (q_table q) (q_conds q) ;;
      while_next rows (fun row => _recordObject (Some row))
  end.

(** [_getCurrentScopeName] *)
Definition _getCurrentScopeName : JS.value :=
  let scp := pf_getCurrentScopeName P in
  match scp with
  | JS.str s => if s =? "rhino.global" then JS.str "global" else scp
  | _ => scp
  end.

(** [_getCurrentScopeGR] *)
Definition _getCurrentScopeGR : M GlideRecord :=
  let sn := _getCurrentScopeName in
  if JS.nil sn then
    throw "xSNUpdateSetBuilder._getCurrentScopeGR: No scope name found!"
  else
    scp <- gr_get_by TABLES.SYS_SCOPE "name" (JS.to_string sn) ;;
    match scp with
    | None =>
        throw ("xSNUpdateSetBuilder._getCurrentScopeGR: No scope found with name '"
               ++ JS.to_string sn ++ "'")
    | Some scp => ret scp
    end.

(** *** Public API *)

(** The update set named [updateSetName] in the current scope, created when
    there is none. *)
Definition find_or_create_update_set (currentScopeSysId updateSetName : string)
  : M GlideRecord :=
  found <- gr_query TABLES.UPDATE_SET
             [addQuery "application" currentScopeSysId;
              addQuery "name" updateSetName] ;;
  match found with
  | [] =>
      usGR <- gr_insert TABLES.UPDATE_SET
                [("application", currentScopeSysId); ("name", updateSetName)] ;;
      gs_log ("writeUpdateSet: CREATED new update set named '"
              ++ element usGR "name" ++ "'") ;;
      ret usGR
  | usGR :: _ =>
      gs_log ("writeUpdateSet: EXISTING update set named '"
              ++ element usGR "name" ++ "' found.") ;;
      ret usGR
  end.

(** Body of [for (var sys_id in this._capturedObjectMap)]. *)
Definition write_entry (entry : string * string) : M unit :=
  let (sys_id, tblName) := entry in
  gr <- gr_get tblName sys_id ;;
  match gr with
  | Some gr => um_saveRecord gr
  | None => ret tt
  end.

(** The [try] block of [writeUpdateSet]. *)
Definition write_try (usGR : GlideRecord) : M unit :=
  let writeUpdateSet := JS.to_string (sys_id usGR) in
  gs_log ("writeUpdateSet: Moving to Update Set '" ++ element usGR "name" ++ "'") ;;
  gus_set writeUpdateSet ;;
  gs_log ("writeUpdateSet: Writing captured objects to update set" ++ newline) ;;
  b <- get_this ;;
  while_next (_capturedObjectMap b) write_entry ;;
  gs_log "writeUpdateSet: Finished writing captured objects to update set".

(** The [catch (ex)] block. *)
Definition write_catch (ex : string) : M unit :=
  gs_log ("writeUpdateSet: ERROR while writing update set!: " ++ ex).

(** The [finally] block. *)
Definition write_finally (currUpdateSetSysId : string)
    (currUpdateSetGR : GlideRecord) : M unit :=
  _flushObjectCache ;;
  gus_set currUpdateSetSysId ;;
  now <- gus_get ;;
  if negb (now =? currUpdateSetSysId) then
    gs_log "writeUpdateSet: WARNING: Failed to move back to originally selected update set.  MAKE SURE TO DO SO MANUALLY"
  else
    gs_log ("writeUpdateSet: Moved back to original update set '"
            ++ element currUpdateSetGR "name" ++ "' successfully").

(** [writeUpdateSet(updateSetName)]; it returns nothing ([@return {void}]). *)
Definition writeUpdateSet (updateSetName : JS.value) : M unit :=
  if JS.nil updateSetName then
    throw "xSNUpdateSetBuilder.writeUpdateSet: parameter 'updateSetName' is nil!"
  else
    currentScopepGR <- _getCurrentScopeGR ;;
    let currentScopeSysId := JS.to_string (sys_id currentScopepGR) in
    gs_log ("writeUpdateSet: Called to write captured objects to [UPDATE SET: '"
            ++ JS.to_string updateSetName ++ "', SCOPE: '"
            ++ element currentScopepGR "name" ++ "']") ;;
    currUpdateSetSysId <- gus_get ;;
    currUpdateSetGR <- gr_get TABLES.UPDATE_SET currUpdateSetSysId ;;
    match currUpdateSetGR with
    | None =>
        throw "xSNUpdateSetBuilder.writeUpdateSet: Unable to retrieve GR for current update set!"
    | Some currUpdateSetGR =>
        gs_log ("writeUpdateSet: User's current update set is '"
                ++ element currUpdateSetGR "name" ++ "'") ;;
        usGR <- find_or_create_update_set currentScopeSysId
                  (JS.to_string updateSetName) ;;
        try_catch_finally (write_try usGR) write_catch
          (write_finally currUpdateSetSysId currUpdateSetGR)
    end.

(** [captureTableNumber(tblName)] *)
Definition captureTableNumber (tblName : JS.value) : M unit :=
  if JS.nil tblName then
    throw "xSNUpdateSetBuilder.captureTableNumber: parameter 'tblName' is nil!"
  else
    let tblName := JS.to_string tblName in
    tblGR <- gr_get_by TABLES.SYS_DB_OBJECT "name" tblName ;;
    match tblGR with
    | None =>
        throw ("xSNUpdateSetBuilder.captureTableNumber: no table named '"
               ++ tblName ++ "' found!")
    | Some _ =>
        _captureObjectsFromGRQuery
          (mkQuery TABLES.TABLE_NUMBER [addQuery "category" tblName])
    end.

(** [captureACLsForTable(tblName)] *)
Definition captureACLsForTable (tblName : JS.value) : M unit :=
  if JS.nil tblName then
    throw "xSNUpdateSetBuilder.captureACLsForTable: parameter 'tblName' is nil!"
  else
    let tblName := JS.to_string tblName in
    tblGRCount <- gr_query TABLES.SYS_DB_OBJECT [addQuery "name" tblName] ;;
    match tblGRCount with
    | [] =>
        throw ("xSNUpdateSetBuilder.captureACLsForTable: no table named '"
               ++ tblName ++ "' found!")
    | _ :: _ =>
        acl <- gr_query TABLES.SYS_SECURITY_ACL [addQuery "name" tblName] ;;
        while_next acl
          (fun acl =>
             _recordObject (Some acl) ;;
             let conds := [addQuery "sys_security_acl" (JS.to_string (sys_id acl))] in
             gr_query TABLES.SYS_SECURITY_ACL_ROLE conds ;;
             _captureObjectsFromGRQuery (mkQuery TABLES.SYS_SECURITY_ACL_ROLE conds))
    end.

(** [captureACLsForTableAndField(tblName, fieldName)] *)
Definition captureACLsForTableAndField (tblName fieldName : JS.value) : M unit :=
  if JS.nil tblName then
    throw "xSNUpdateSetBuilder.captureACLsForTableAndField: parameter 'tblName' is nil!"
  else if JS.nil fieldName then
    throw "xSNUpdateSetBuilder.captureACLsForTableAndField: parameter 'fieldName' is nil!"
  else
    let tblName := JS.to_string tblName in
    let fieldName := JS.to_string fieldName in
    tblGRCount <- gr_query TABLES.SYS_DB_OBJECT [addQuery "name" tblName] ;;
    match tblGRCount with
    | [] =>
        throw ("xSNUpdateSetBuilder.captureACLsForTableAndField: no table named '"
               ++ tblName ++ "' found!")
    | _ :: _ =>
        fieldGRCount <- gr_query TABLES.SYS_DICTIONARY
                          [addQuery "name" tblName; addQuery "element" fieldName] ;;
        match fieldGRCount with
        | [] =>
            throw ("xSNUpdateSetBuilder.captureACLsForTableAndField: no field named '"
                   ++ fieldName ++ "' found on table '" ++ tblName ++ "' found!")
        | _ :: _ =>
            acl <- gr_query TABLES.SYS_SECURITY_ACL
                     [addQuery "name" (tblName ++ "." ++ fieldName)] ;;
            while_next acl
              (fun acl =>
                 _recordObject (Some acl) ;;
                 _captureObjectsFromGRQuery
                   (mkQuery TABLES.SYS_SECURITY_ACL_ROLE
                      [addQuery "sys_security_acl" (JS.to_string (sys_id acl))]))
        end
    end.

(** [captureUIPolicesForTable(tblName)] *)
Definition captureUIPolicesForTable (tblName : JS.value) : M unit :=
  if JS.nil tblName then
    throw "xSNUpdateSetBuilder.captureUIPolicesForTable: parameter 'tblName' is nil!"
  else
    let tblName := JS.to_string tblName in
    tblGRCount <- gr_query TABLES.SYS_DB_OBJECT [addQuery "name" tblName] ;;
    match tblGRCount with
    | [] =>
        throw ("xSNUpdateSetBuilder.captureUIPolicesForTable: no table named '"
               ++ tblName ++ "' found!")
    | _ :: _ =>
        ui <- gr_query TABLES.UI_POLICY [addQuery "table" tblName] ;;
        while_next ui
          (fun ui =>
             _recordObject (Some ui) ;;
             let conds := [addQuery "ui_policy" (JS.to_string (sys_id ui))] in
             gr_query TABLES.UI_POLICY_ACTION conds ;;
             _captureObjectsFromGRQuery (mkQuery TABLES.UI_POLICY_ACTION conds))
    end.

(** [captureDataPolicesForTable(tblName)] *)
Definition captureDataPolicesForTable (tblName : JS.value) : M unit :=
  if JS.nil tblName then
    throw "xSNUpdateSetBuilder.captureDataPolicesForTable: parameter 'tblName' is nil!"
  else
    let tblName := JS.to_string tblName in
    tblGRCount <- gr_query TABLES.SYS_DB_OBJECT [addQuery "name" tblName] ;;
    match tblGRCount with
    | [] =>
        throw ("xSNUpdateSetBuilder.captureDataPolicesForTable: no table named '"
               ++ tblName ++ "' found!")
    | _ :: _ =>
        dp <- gr_query TABLES.DATA_POLICY [addQuery "model_table" tblName] ;;
        while_next dp
          (fun dp =>
             _recordObject (Some dp) ;;
             _captureObjectsFromGRQuery
               (mkQuery TABLES.DATA_POLICY_RULE
                  [addQuery "sys_data_policy" (JS.to_string (sys_id dp))]))
    end.

(** [captureListLayoutsForTable(tblName)] *)
Definition captureListLayoutsForTable (tblName : JS.value) : M unit :=
  if JS.nil tblName then
    throw "xSNUpdateSetBuilder.captureListLayoutsForTable: parameter 'tblName' is nil!"
  else
    let tblName := JS.to_string tblName in
    lst <- gr_query TABLES.LIST_LAYOUT
             [addQuery "name" tblName; addNotNullQuery "view";
              addNullQuery "sys_user"; addNullQuery "relationship"] ;;
    while_next lst
      (fun lst =>
         vw <- getRefRecord lst "view" ;;
         let vwNameUpper := JS.toUpperCase (element vw "name") in
         if JS.startsWith vwNameUpper "RPT" then ret tt
         else
           _captureUIView (JS.str (JS.to_string (sys_id vw))) ;;
           _recordObject (Some lst)) ;;
    lc <- gr_query TABLES.LIST_CONTROL [addQuery "name" tblName] ;;
    while_next lc (fun lc => _recordObject (Some lc)).

(** [captureFormLayoutsForTable(tblName)] *)
Definition captureFormLayoutsForTable (tblName : JS.value) : M unit :=
  if JS.nil tblName then
    throw "xSNUpdateSetBuilder.captureFormLayoutsForTable: parameter 'tblName' is nil!"
  else
    let tblName := JS.to_string tblName in
    frm <- gr_query TABLES.FORM [addQuery "name" tblName; addNotNullQuery "view"] ;;
    while_next frm
      (fun frm =>
         vw <- getRefRecord frm "view" ;;
         let vwSysId := JS.to_string (sys_id vw) in
         let vwNameUpper := JS.toUpperCase (element vw "name") in
         if JS.startsWith vwNameUpper "RPT" then ret tt
         else
           _recordObject (Some frm) ;;
           frs1 <- gr_query TABLES.FORM_SECTION
                     [addQuery "sys_ui_form" (JS.to_string (sys_id frm));
                      addNotNullQuery "sys_ui_section"] ;;
           while_next frs1
             (fun frs1 =>
                frs2 <- getRefRecord frs1 "sys_ui_section" ;;
                _recordObject (Some frs2)) ;;
           rel <- gr_query TABLES.FORM_RELATED_LIST
                    [addQuery "name" tblName; addQuery "view" vwSysId] ;;
           match rel with
           | rel :: _ => _recordObject (Some rel)
           | [] =>
               gs_log ("WARNING: No Related List found for Table '" ++ tblName
                       ++ "' for View '" ++ element vw "name" ++ "'")
           end).

(** [captureTableFieldAndAssociatedObjects(tblName, fldName)] *)
Definition captureTableFieldAndAssociatedObjects (tblName fldName : JS.value)
  : M unit :=
  if JS.nil tblName then
    throw "xSNUpdateSetBuilder.captureTableFieldAndAssociatedObjects: parameter 'tblName' is nil!"
  else
    let tblName := JS.to_string tblName in
    if JS.nil fldName then
      throw "xSNUpdateSetBuilder.captureTableFieldAndAssociatedObjects: parameter 'fldName' is nil!"
    else
      let fldName := JS.to_string fldName in
      let conds := [addQuery "name" tblName; addQuery "element" fldName] in
      dict <- gr_query TABLES.SYS_DICTIONARY conds ;;
      match dict with
      | [] =>
          throw ("xSNUpdateSetBuilder.captureTableFieldAndAssociatedObjects: No field named '"
                 ++ fldName ++ "' on table '" ++ tblName ++ "' found!")
      | dict :: _ =>
          _recordObject (Some dict) ;;
          _captureObjectsFromGRQuery (mkQuery TABLES.SYS_DOCUMENTATION conds) ;;
          _captureObjectsFromGRQuery (mkQuery TABLES.SYS_CHOICE conds) ;;
          captureACLsForTableAndField (JS.str tblName) (JS.str fldName) ;;
          _captureObjectsFromGRQuery (mkQuery TABLES.SYS_DICTIONARY_OVERRIDE conds)
      end.

(** [captureTableWithRelatedObjects(tblName)] *)
Definition captureTableWithRelatedObjects (tblName : JS.value) : M unit :=
  if JS.nil tblName then
    throw "xSNUpdateSetBuilder.captureTableWithRelatedObjects: parameter 'tblName' is nil!"
  else
    let tblName := JS.to_string tblName in
    tblGR <- gr_get_by TABLES.SYS_DB_OBJECT "name" tblName ;;
    match tblGR with
    | None =>
        throw ("xSNUpdateSetBuilder.captureTableWithRelatedObjects: no table named '"
               ++ tblName ++ "' found!")
    | Some tblGR =>
        _recordObject (Some tblGR) ;;
        _captureObjectsFromGRQuery
          (mkQuery TABLES.SYS_DICTIONARY
             [addQuery "name" tblName; addNullQuery "element"]) ;;
        captureTableNumber (JS.str tblName) ;;
        captureACLsForTable (JS.str tblName) ;;
        _captureObjectsFromGRQuery
          (mkQuery TABLES.SYS_SCRIPT_CLIENT [addQuery "table" tblName]) ;;
        _captureObjectsFromGRQuery
          (mkQuery TABLES.SYS_SCRIPT [addQuery "collection" tblName]) ;;
        _captureObjectsFromGRQuery
          (mkQuery TABLES.UI_ACTION [addQuery "table" tblName]) ;;
        captureUIPolicesForTable (JS.str tblName) ;;
        captureDataPolicesForTable (JS.str tblName) ;;
        _captureObjectsFromGRQuery
          (mkQuery TABLES.UI_STYLE [addQuery "name" tblName]) ;;
        _captureObjectsFromGRQuery
          (mkQuery TABLES.TABLE_VIEW_RULE [addQuery "table" tblName]) ;;
        dict <- gr_query TABLES.SYS_DICTIONARY
                  [addNotNullQuery "element"; addQuery "name" tblName] ;;
        while_next dict
          (fun dict =>
             captureTableFieldAndAssociatedObjects
               (JS.str tblName) (JS.str (element dict "element"))) ;;
        captureFormLayoutsForTable (JS.str tblName) ;;
        captureListLayoutsForTable (JS.str tblName)
    end.

(** [captureCatalogUIPolicy(catUIPolicySysId)] *)
Definition captureCatalogUIPolicy (catUIPolicySysId : JS.value) : M unit :=
  if JS.nil catUIPolicySysId then
    throw "xSNUpdateSetBuilder.captureCatalogUIPolicy: parameter 'catUIPolicySysId' is nil!"
  else
    let catUIPolicySysId := JS.to_string catUIPolicySysId in
    catUIPolicy <- gr_get TABLES.CATALOG_ITEM_UI_POLICY catUIPolicySysId ;;
    match catUIPolicy with
    | None =>
        throw ("xSNUpdateSetBuilder.captureCatalogUIPolicy: no Catalog UI policy found for sys_id '"
               ++ catUIPolicySysId ++ "'!")
    | Some catUIPolicy =>
        _recordObject (Some catUIPolicy) ;;
        _captureObjectsFromGRQuery
          (mkQuery TABLES.CATALOG_ITEM_UI_POLICY_ACTION
             [addQuery "ui_policy" catUIPolicySysId])
    end.

(** [if (!varGR.<field>.nil()) this._recordObject(varGR.<field>.getRefRecord())],
    with the warning logged first by the branches that log one. *)
Definition record_linked (varGR : GlideRecord) (field : string)
    (warning : option string) : M unit :=
  if negb (element_nil varGR field) then
    match warning with
    | Some msg => gs_log msg
    | None => ret tt
    end ;;
    linked <- getRefRecord varGR field ;;
    _recordObject (Some linked)
  else ret tt.

(** [captureServiceCatalogVariable(varSysId)] *)
Definition captureServiceCatalogVariable (varSysId : JS.value) : M unit :=
  if JS.nil varSysId then
    throw "xSNUpdateSetBuilder.captureServiceCatalogVariable: parameter 'varSysId' is nil!"
  else
    let varSysId := JS.to_string varSysId in
    varGR <- gr_get TABLES.CATALOG_ITEM_VARIABLE varSysId ;;
    match varGR with
    | None =>
        throw ("xSNUpdateSetBuilder.captureServiceCatalogVariable: No Catalog Variable found for sys_id '"
               ++ varSysId ++ "'!")
    | Some varGR =>
        _recordObject (Some varGR) ;;
        let type := element varGR "type" in
        if (type =? "14") || (type =? "17") then
          record_linked varGR "macro" None ;;
          record_linked varGR "summary_macro" None ;;
          record_linked varGR "sp_widget"
            (Some (tab ++ "WARNING: This Variable links to a SP Widget, which are not fully supported for capture. You may need to manually import some of the widget's depdencies")) ;;
          record_linked varGR "macroponent"
            (Some (tab ++ "WARNING: This Variable links to a Macroponent, which are not fully supported for capture. You may need to manually import some of its depdencies"))
        else if (type =? "3") || (type =? "5") then
          _captureObjectsFromGRQuery
            (mkQuery TABLES.CATALOG_ITEM_VARIABLE_QUESTION_CHOICE
               [addQuery "question" (JS.to_string (sys_id varGR))])
        else if type =? "15" then
          record_linked varGR "ui_page" None
        else ret tt
    end.

(** [captureServiceCatalogItem(catSysId)] *)
Definition captureServiceCatalogItem (catSysId : JS.value) : M unit :=
  if JS.nil catSysId then
    throw "xSNUpdateSetBuilder.captureServiceCatalogItem: parameter 'catSysId' is nil!"
  else
    let catSysId := JS.to_string catSysId in
    catItemGR <- gr_get TABLES.CATALOG_ITEM catSysId ;;
    match catItemGR with
    | None =>
        throw ("xSNUpdateSetBuilder.captureServiceCatalogItem: No Catalog Item found for sys_id '"
               ++ catSysId ++ "'!")
    | Some catItemGR =>
        if negb (element catItemGR "sys_class_name" =? TABLES.CATALOG_ITEM) then
          throw ("xSNUpdateSetBuilder.captureServiceCatalogItem: Catalog Item for sys_id '"
                 ++ catSysId ++ "' is a '"
                 ++ pf_getDisplayValue P catItemGR "sys_class_name"
                 ++ "'; Catalog Item subclasses are not supported by this utility")
        else
          _recordObject (Some catItemGR) ;;
          catVars <- gr_query TABLES.CATALOG_ITEM_VARIABLE
                       [addQuery "cat_item" catSysId] ;;
          while_next catVars
            (fun catVars =>
               captureServiceCatalogVariable (JS.str (JS.to_string (sys_id catVars)))) ;;
          varSetsM2M <- gr_query TABLES.CATALOG_ITEM_VARIABLE_SET_M2M
                          [addQuery "sc_cat_item" catSysId;
                           addNotNullQuery "variable_set"] ;;
          while_next varSetsM2M
            (fun varSetsM2M =>
               _recordObject (Some varSetsM2M) ;;
               varSet <- getRefRecord varSetsM2M "variable_set" ;;
               (if pf_isValidRecord P varSet then _recordObject (Some varSet)
                else ret tt) ;;
               let varSetSysId := JS.to_string (sys_id varSet) in
               varSetVars <- gr_query TABLES.CATALOG_ITEM_VARIABLE
                               [addQuery "variable_set" varSetSysId] ;;
               while_next varSetVars
                 (fun varSetVars =>
                    captureServiceCatalogVariable
                      (JS.str (JS.to_string (sys_id varSetVars)))) ;;
               varSetUIPolicy <- gr_query TABLES.CATALOG_ITEM_UI_POLICY
                                   [addQuery "variable_set" varSetSysId;
                                    addQuery "applies_to" "set"] ;;
               while_next varSetUIPolicy
                 (fun varSetUIPolicy =>
                    captureCatalogUIPolicy
                      (JS.str (JS.to_string (sys_id varSetUIPolicy)))) ;;
               _captureObjectsFromGRQuery
                 (mkQuery TABLES.CATALOG_ITEM_CLIENT_SCRIPT
                    [addQuery "variable_set" varSetSysId;
                     addQuery "applies_to" "set"])) ;;
          catUIPolicy <- gr_query TABLES.CATALOG_ITEM_UI_POLICY
                           [addQuery "catalog_item" catSysId;
                            addQuery "applies_to" "item"] ;;
          while_next catUIPolicy
            (fun catUIPolicy =>
               captureCatalogUIPolicy (JS.str (JS.to_string (sys_id catUIPolicy)))) ;;
          _captureObjectsFromGRQuery
            (mkQuery TABLES.CATALOG_ITEM_CLIENT_SCRIPT
               [addQuery "cat_item" catSysId; addQuery "applies_to" "item"])
    end.

(** [captureDatabaseView(vName)] *)
Definition captureDatabaseView (vName : JS.value) : M unit :=
  if JS.nil vName then
    throw "xSNUpdateSetBuilder.captureDatabaseView: parameter 'vName' is nil!"
  else
    let vName := JS.to_string vName in
    vw <- gr_query TABLES.DATABASE_VIEW [addQuery "name" vName] ;;
    match vw with
    | [] =>
        throw ("xSNUpdateSetBuilder.captureDatabaseView: no DB view named '"
               ++ vName ++ "' found!'")
    | vw :: _ =>
        _recordObject (Some vw) ;;
        captureFormLayoutsForTable (JS.str vName) ;;
        captureListLayoutsForTable (JS.str vName) ;;
        tbl <- gr_query TABLES.DATABASE_VIEW_TABLE
                 [addQuery "view" (JS.to_string (sys_id vw))] ;;
        while_next tbl
          (fun tbl =>
             _recordObject (Some tbl) ;;
             fld <- gr_query TABLES.DATABASE_VIEW_TABLE_FIELD
                      [addQuery "view_table" (JS.to_string (sys_id tbl))] ;;
             while_next fld (fun fld => _recordObject (Some fld)))
    end.

(** [captureApplicationMenuAndModules(menuSysId)] *)
Definition captureApplicationMenuAndModules (menuSysId : JS.value) : M unit :=
  if JS.nil menuSysId then
    throw "xSNUpdateSetBuilder.captureApplicationMenuAndModules: parameter 'menuSysId' is nil!"
  else
    let menuSysId := JS.to_string menuSysId in
    appMenu <- gr_get TABLES.APPLICATION_MENU menuSysId ;;
    match appMenu with
    | None =>
        throw ("xSNUpdateSetBuilder.captureApplicationMenuAndModules: no App menu found for sys_id '"
               ++ menuSysId ++ "'")
    | Some appMenu =>
        _recordObject (Some appMenu) ;;
        _captureObjectsFromGRQuery
          (mkQuery TABLES.APPLICATION_MENU_MODULE
             [addQuery "application" (JS.to_string (sys_id appMenu))])
    end.

(** [captureScriptIncludeByName(scrName)] *)
Definition captureScriptIncludeByName (scrName : JS.value) : M unit :=
  if JS.nil scrName then
    throw "xSNUpdateSetBuilder.captureScriptIncludeByName: parameter 'scrName' is nil!"
  else
    let apiName := JS.to_string _getCurrentScopeName ++ "." ++ JS.to_string scrName in
    _captureUniqueGRObject
      (mkQuery TABLES.SCRIPT_INCLUDE [addQuery "api_name" apiName])
      "xSNUpdateSetBuilder.captureScriptIncludeByName" ;;
    ret tt.

(** [captureUserRole(roleName)] *)
Definition captureUserRole (roleName : JS.value) : M unit :=
  if JS.nil roleName then
    throw "xSNUpdateSetBuilder.captureUserRole: parameter 'roleName' is nil!"
  else
    let roleName := JS.to_string roleName in
    _captureUniqueGRObject
      (mkQuery TABLES.ROLE
         [addQuery "sys_scope" (JS.to_string _getCurrentScopeName);
          addQuery "name" roleName])
      "xSNUpdateSetBuilder.captureUserRole" ;;
    ret tt.

(** [captureApplicationRecord(appName)] *)
Definition captureApplicationRecord (appName : JS.value) : M unit :=
  if JS.nil appName then
    throw "xSNUpdateSetBuilder.captureTableNumber: parameter 'appName' is nil!"
  else
    let appName := JS.to_string appName in
    _captureUniqueGRObject
      (mkQuery TABLES.SYS_APPLICATION [addQuery "name" appName])
      "xSNUpdateSetBuilder.captureApplicationRecord" ;;
    ret tt.

(** [captureSystemProperty(propName)] *)
Definition captureSystemProperty (propName : JS.value) : M unit :=
  if JS.nil propName then
    throw "xSNUpdateSetBuilder.captureSystemProperty: parameter 'propName' is nil!"
  else
    _captureUniqueGRObject
      (mkQuery TABLES.SYS_PROPERTIES [addQuery "name" (JS.to_string propName)])
      "xSNUpdateSetBuilder.captureSystemProperty" ;;
    ret tt.

(** [captureSystemPropertyCategoryWithAssociations(catName)] *)
Definition captureSystemPropertyCategoryWithAssociations (catName : JS.value)
  : M unit :=
  if JS.nil catName then
    throw "captureSystemPropertyCategory: parameter 'catName' is nil!"
  else
    cat <- _captureUniqueGRObject
             (mkQuery TABLES.SYS_PROPERTIES_CATEGORY
                [addQuery "name" (JS.to_string catName)])
             "xSNUpdateSetBuilder.captureSystemPropertyCategoryWithAssociations" ;;
    assoc <- gr_query TABLES.SYS_PROPERTIES_CATEGORY_ASSOC
               [addQuery "category" (JS.to_string (sys_id cat));
                addNotNullQuery "property"] ;;
    while_next assoc
      (fun assoc =>
         prop <- getRefRecord assoc "property" ;;
         captureSystemProperty (JS.str (element prop "name")) ;;
         _recordObject (Some assoc)).

(** [captureEventRegistration(evtName)] *)
Definition captureEventRegistration (evtName : JS.value) : M unit :=
  if JS.nil evtName then
    throw "xSNUpdateSetBuilder.captureEventRegistration: parameter 'evtName' is nil!"
  else
    _captureUniqueGRObject
      (mkQuery TABLES.SYS_EVENT [addQuery "event_name" (JS.to_string evtName)])
      "xSNUpdateSetBuilder.captureEventRegistration" ;;
    ret tt.

(** [captureDataRecordsFromTable(tblName, queryCondition)] *)
Definition captureDataRecordsFromTable (tblName queryCondition : JS.value)
  : M unit :=
  if JS.nil tblName then
    throw "xSNUpdateSetBuilder.captureDataRecordsFromTable: parameter 'tblName' is nil!"
  else
    let tblName := JS.to_string tblName in
    let conds := if negb (JS.nil queryCondition)
                 then [addEncodedQuery (JS.to_string queryCondition)]
                 else [] in
    gr_query tblName conds ;;
    _captureObjectsFromGRQuery (mkQuery tblName conds) ;;
    gs_log ("xSNUpdateSetBuilder.captureDataRecordsFromTable: captured "
            ++ JS.of_nat (length (pf_query P tblName conds)) ++ " records").

(** [captureDataRecord(gr)] *)
Definition captureDataRecord (gr : Argument) : M unit :=
  match gr with
  | ArgNull => throw "xSNUpdateSetBuilder.captureDataRecord: parameter 'gr' is null!"
  | ArgUndefined =>
      throw "xSNUpdateSetBuilder.captureDataRecord: parameter 'gr' is undefined!"
  | ArgOther =>
      throw "xSNUpdateSetBuilder.captureDataRecord: parameter 'gr' must be a GlideRecord!"
  | ArgGlideRecord gr =>
      let tblName := getTableName gr in
      if JS.nil (JS.str tblName) then
        throw "xSNUpdateSetBuilder.captureDataRecord: parameter 'gr' must be initialied to a table!"
      else _recordObject (Some gr)
  end.

(** [captureArchivalRule(ruleSysId)], with fuel for its recursive call. *)
Fixpoint captureArchivalRule (fuel : nat) (ruleSysId : JS.value) : MF unit :=
  match fuel with
  | 0 => out_of_fuel
  | S fuel' =>
      if JS.nil ruleSysId then
        lift (throw "captureArchivalRule: parameter 'ruleSysId' is nil!")
      else
        let ruleSysId := JS.to_string ruleSysId in
        bindF (lift (gr_get TABLES.ARCHIVE_RULE ruleSysId)) (fun rul =>
        match rul with
        | None =>
            lift (throw ("xSNUpdateSetBuilder.captureArchivalRule: No archive rule found for sys_id "
                         ++ ruleSysId))
        | Some rul =>
            bindF (lift (_recordObject (Some rul))) (fun _ =>
            bindF (lift (gr_query TABLES.ARCHIVE_RULE_RELATED
                           [addQuery "archive_map" ruleSysId])) (fun rel =>
            while_nextF rel (fun rel =>
              bindF (lift (_recordObject (Some rel))) (fun _ =>
              if negb (element_nil rel "table_archive_rule") then
                let chld := element rel "table_archive_rule" in
                if negb (chld =? ruleSysId) then
                  captureArchivalRule fuel' (JS.str chld)
                else lift (ret tt)
              else lift (ret tt)))))
        end)
  end.

(** *** The public API as a whole *)

Definition run (fuel : nat) (c : PublicCall) : MF unit :=
  match c with
  | call_writeUpdateSet n => lift (writeUpdateSet n)
  | call_captureTableWithRelatedObjects t => lift (captureTableWithRelatedObjects t)
  | call_captureServiceCatalogItem i => lift (captureServiceCatalogItem i)
  | call_captureDatabaseView v => lift (captureDatabaseView v)
  | call_captureApplicationMenuAndModules m => lift (captureApplicationMenuAndModules m)
  | call_captureScriptIncludeByName n => lift (captureScriptIncludeByName n)
  | call_captureUserRole r => lift (captureUserRole r)
  | call_captureApplicationRecord a => lift (captureApplicationRecord a)
  | call_captureSystemPropertyCategoryWithAssociations n =>
      lift (captureSystemPropertyCategoryWithAssociations n)
  | call_captureSystemProperty n => lift (captureSystemProperty n)
  | call_captureEventRegistration n => lift (captureEventRegistration n)
  | call_captureDataRecordsFromTable t q => lift (captureDataRecordsFromTable t q)
  | call_captureDataRecord gr => lift (captureDataRecord gr)
  | call_captureACLsForTable t => lift (captureACLsForTable t)
  | call_captureACLsForTableAndField t f => lift (captureACLsForTableAndField t f)
  | call_captureUIPolicesForTable t => lift (captureUIPolicesForTable t)
  | call_captureDataPolicesForTable t => lift (captureDataPolicesForTable t)
  | call_captureTableNumber t => lift (captureTableNumber t)
  | call_captureListLayoutsForTable t => lift (captureListLayoutsForTable t)
  | call_captureFormLayoutsForTable t => lift (captureFormLayoutsForTable t)
  | call_captureTableFieldAndAssociatedObjects t f =>
      lift (captureTableFieldAndAssociatedObjects t f)
  | call_captureArchivalRule r => captureArchivalRule fuel r
  | call_captureCatalogUIPolicy i => lift (captureCatalogUIPolicy i)
  | call_captureServiceCatalogVariable v => lift (captureServiceCatalogVariable v)
  end.

End Methods.

(** ** Observations used by the statements *)

(** A fresh builder in a session whose current update set is [us]. *)
Definition fresh (us : string) : Env :=
  {| this := initialize; currentUpdateSet := us; trace := [] |}.

(** The builder after [_recordObject(gr)] on builder [b]. *)
Definition recorded (gr : GlideRecord) (b : Builder) : Builder :=
  this (snd (_recordObject (Some gr)
               {| this := b; currentUpdateSet := ""; trace := [] |})).

(** Sequences of record and flush operations on one builder. *)
Inductive Op : Type :=
| op_record (gr : option GlideRecord)
| op_flush.

Definition step (o : Op) : M unit :=
  match o with
  | op_record gr => _recordObject gr
  | op_flush => _flushObjectCache
  end.

Fixpoint run_ops (ops : list Op) (e : Env) : Env :=
  match ops with
  | [] => e
  | o :: rest => run_ops rest (snd (step o e))
  end.

(** The operation records nothing or a record whose table name is not empty. *)
Definition names_table (o : Op) : bool :=
  match o with
  | op_record (Some gr) => JS.truthy (getTableName gr)
  | _ => true
  end.

(** Records written by [saveRecord], most recent first. *)
Fixpoint saved_records (t : list Event) : list GlideRecord :=
  match t with
  | [] => []
  | EvSaveRecord _ gr :: rest => gr :: saved_records rest
  | _ :: rest => saved_records rest
  end.

(** The most recent [GlideUpdateSet.set] of the trace. *)
Fixpoint last_setUpdateSet (t : list Event) : option string :=
  match t with
  | [] => None
  | EvSetUpdateSet id :: _ => Some id
  | _ :: rest => last_setUpdateSet rest
  end.

(** Tables and conditions of the lookups issued, most recent first. *)
Fixpoint lookups (t : list Event) : list (string * list Condition) :=
  match t with
  | [] => []
  | EvQuery tbl conds :: rest => (tbl, conds) :: lookups rest
  | _ :: rest => lookups rest
  end.

(** Messages logged, most recent first. *)
Fixpoint logged (t : list Event) : list string :=
  match t with
  | [] => []
  | EvLog msg :: rest => msg :: logged rest
  | _ :: rest => logged rest
  end.

(** The invariant behind [getObjectCount]: the keys of the map are distinct,
    every stored table name is truthy, and the counter is the number of
    entries. *)
Definition consistent (b : Builder) : Prop :=
  NoDup (map fst (_capturedObjectMap b))
  /\ _capturedObjectCount b = length (_capturedObjectMap b)
  /\ Forall (fun kv => JS.truthy (snd kv) = true) (_capturedObjectMap b).

(** The environment after one [query()] on [tbl] with [conds]: the builder
    and the session are as before, the lookup is on the trace. *)
Definition after_query (tbl : string) (conds : list Condition) (e : Env) : Env :=
  {| this := this e;
     currentUpdateSet := currentUpdateSet e;
     trace := EvQuery tbl conds :: trace e |}.

(** The builder after recording the records of [l] in order. *)
Definition recorded_all (l : list GlideRecord) (b : Builder) : Builder :=
  fold_left (fun b gr => recorded gr b) l b.

(** [c] completes normally and its effect on the builder is to record the
    records of [l] in order. *)
Definition records (c : M unit) (l : list GlideRecord) : Prop :=
  forall e, fst (c e) = Normal tt /\ this (snd (c e)) = recorded_all l (this e).

(** [c] completes normally with [a] and leaves the builder alone. *)
Definition reads {A} (c : M A) (a : A) : Prop :=
  forall e, fst (c e) = Normal a /\ this (snd (c e)) = this e.

(** What happens to one entry of the captured-object map in the write loop. *)
Inductive Outcome : Type :=
| Written (gr : GlideRecord)
| Skipped
| Failed (ex : string).

Definition entry_outcome (P : Platform) (entry : string * string) : Outcome :=
  let (id, tbl) := entry in
  match hd_error (pf_query P tbl [addQuery "sys_id" id]) with
  | None => Skipped
  | Some gr =>
      match pf_saveRecord P gr with
      | None => Written gr
      | Some ex => Failed ex
      end
  end.

(** The exception of the first entry whose write throws, if any. *)
Fixpoint first_failure (P : Platform) (entries : ObjectMap) : option string :=
  match entries with
  | [] => None
  | entry :: rest =>
      match entry_outcome P entry with
      | Failed ex => Some ex
      | _ => first_failure P rest
      end
  end.

(** The records of the entries that resolve, up to the first entry whose
    write throws, in iteration order. *)
Fixpoint written_before_failure (P : Platform) (entries : ObjectMap)
  : list GlideRecord :=
  match entries with
  | [] => []
  | entry :: rest =>
      match entry_outcome P entry with
      | Written gr => gr :: written_before_failure P rest
      | Skipped => written_before_failure P rest
      | Failed _ => []
      end
  end.

(** The entries the write loop reaches: all of them up to and including the
    first one whose write throws. *)
Fixpoint attempted_entries (P : Platform) (entries : ObjectMap) : ObjectMap :=
  match entries with
  | [] => []
  | entry :: rest =>
      match entry_outcome P entry with
      | Failed _ => [entry]
      | _ => entry :: attempted_entries P rest
      end
  end.

(** The lookup the write loop issues for an entry. *)
Definition entry_lookup (entry : string * string) : string * list Condition :=
  (snd entry, [addQuery "sys_id" (fst entry)]).

(** The trace after the write loop has run over [entries] from trace [t], in
    a session whose current update set is [us]. *)
Fixpoint loop_trace (P : Platform) (us : string) (entries : ObjectMap)
    (t : list Event) : list Event :=
  match entries with
  | [] => t
  | entry :: rest =>
      let t1 := EvQuery (snd entry) [addQuery "sys_id" (fst entry)] :: t in
      match entry_outcome P entry with
      | Written gr => loop_trace P us rest (EvSaveRecord us gr :: t1)
      | Skipped => loop_trace P us rest t1
      | Failed _ => t1
      end
  end.

(** The environment [e] with builder [b] in place of its own. *)
Definition with_builder (b : Builder) (e : Env) : Env :=
  {| this := b; currentUpdateSet := currentUpdateSet e; trace := trace e |}.

(** [writeUpdateSet(updateSetName)] gets as far as its [try] block: the name
    is not nil, the current scope has a name and resolves to [scopeGR], and
    the session's current update set resolves to [curGR]. *)
Definition reaches_write_loop (P : Platform) (updateSetName : JS.value)
    (scopeGR curGR : GlideRecord) (e : Env) : Prop :=
  JS.nil updateSetName = false
  /\ JS.nil (_getCurrentScopeName P) = false
  /\ hd_error (pf_query P TABLES.SYS_SCOPE
                 [addQuery "name" (JS.to_string (_getCurrentScopeName P))])
     = Some scopeGR
  /\ hd_error (pf_query P TABLES.UPDATE_SET
                 [addQuery "sys_id" (currentUpdateSet e)])
     = Some curGR.

(** The auxiliary objects of a catalog variable, as the specification lists
    them by type: the linked UI Page for type 15, the question choices for
    types 3 and 5, the linked macro, summary macro, SP widget and macroponent
    for types 14 and 17, nothing for any other type. *)
Definition linked_record (P : Platform) (varGR : GlideRecord) (field : string)
  : list GlideRecord :=
  if element_nil varGR field then [] else [pf_getRefRecord P varGR field].

Definition spec_auxiliary_objects (P : Platform) (varGR : GlideRecord)
  : list GlideRecord :=
  let type := element varGR "type" in
  if type =? "15" then linked_record P varGR "ui_page"
  else if (type =? "3") || (type =? "5") then
    pf_query P TABLES.CATALOG_ITEM_VARIABLE_QUESTION_CHOICE
      [addQuery "question" (JS.to_string (sys_id varGR))]
  else if (type =? "14") || (type =? "17") then
    linked_record P varGR "macro" ++ linked_record P varGR "summary_macro"
    ++ linked_record P varGR "sp_widget" ++ linked_record P varGR "macroponent"
  else [].

(** ** A record store given by its rows *)

Module Store.

Definition field_value (gr : GlideRecord) (field : string) : string :=
  if field =? "sys_id" then JS.to_string (sys_id gr) else element gr field.

(** Encoded queries are not interpreted: they select every row. *)
Definition holds (gr : GlideRecord) (c : Condition) : bool :=
  match c with
  | addQuery f v => field_value gr f =? v
  | addNullQuery f => field_value gr f =? ""
  | addNotNullQuery f => negb (field_value gr f =? "")
  | addEncodedQuery _ => true
  end.

Definition select (rows : list GlideRecord) (tbl : string)
    (conds : list Condition) : list GlideRecord :=
  filter (fun gr => (getTableName gr =? tbl) && forallb (holds gr) conds) rows.

(** A reference is followed by sys_id; a dangling one gives an empty record
    of the table the reference field points to. *)
Definition deref (rows : list GlideRecord) (target : string -> string)
    (gr : GlideRecord) (field : string) : GlideRecord :=
  match find (fun r => JS.to_string (sys_id r) =? element gr field) rows with
  | Some r => r
  | None => {| sys_id := JS.str ""; getTableName := target field; elements := [] |}
  end.

(** The platform over [rows], in scope [scope], where [saveRecord] throws
    [failing id] for the records it is defined on. *)
Definition platform (rows : list GlideRecord) (target : string -> string)
    (scope : string) (failing : string -> option string) : Platform :=
  {| pf_query := select rows;
     pf_getRefRecord := deref rows target;
     pf_isValidRecord := fun gr => negb (JS.nil (sys_id gr));
     pf_getDisplayValue := fun gr field => element gr field;
     pf_getCurrentScopeName := JS.str scope;
     pf_insert := fun _ => "00000000000000000000000000000001";
     pf_setUpdateSet := fun _ => true;
     pf_saveRecord := fun gr => failing (JS.to_string (sys_id gr)) |}.

Definition row (tbl id : string) (els : list (string * string)) : GlideRecord :=
  {| sys_id := JS.str id; getTableName := tbl; elements := els |}.

End Store.

(** ** Example data *)

Module Examples.

(** Two archive rules, each with a related record that references the other. *)
Definition archive_cycle : list GlideRecord :=
  [ Store.row "sys_archive" "A" [("name", "rule A")];
    Store.row "sys_archive" "B" [("name", "rule B")];
    Store.row "sys_archive_related" "rAB"
      [("archive_map", "A"); ("table_archive_rule", "B")];
    Store.row "sys_archive_related" "rBA"
      [("archive_map", "B"); ("table_archive_rule", "A")] ].

(** One archive rule whose related record references the rule itself. *)
Definition archive_self : list GlideRecord :=
  [ Store.row "sys_archive" "A" [("name", "rule A")];
    Store.row "sys_archive_related" "rAA"
      [("archive_map", "A"); ("table_archive_rule", "A")] ].

Definition archive_target (field : string) : string := "sys_archive".

Definition cyclic_platform : Platform :=
  Store.platform archive_cycle archive_target "rhino.global" (fun _ => None).

Definition self_platform : Platform :=
  Store.platform archive_self archive_target "rhino.global" (fun _ => None).

(** A session in the global scope on update set [us_cur]; update set
    "Release 1" exists; the configuration table holds [c1] and [c3] but not
    [c2]. *)
Definition commit_rows : list GlideRecord :=
  [ Store.row "sys_scope" "scope0" [("name", "global")];
    Store.row "sys_update_set" "us_cur"
      [("name", "Default"); ("application", "scope0")];
    Store.row "sys_update_set" "us_rel"
      [("name", "Release 1"); ("application", "scope0")];
    Store.row "u_cfg" "c1" [("name", "first")];
    Store.row "u_cfg" "c3" [("name", "third")] ].

Definition commit_platform : Platform :=
  Store.platform commit_rows (fun _ => "") "rhino.global" (fun _ => None).

(** The same session on a platform where writing [c1] throws. *)
Definition failing_platform : Platform :=
  Store.platform commit_rows (fun _ => "") "rhino.global"
    (fun id => if id =? "c1" then Some "write refused" else None).

Definition three_entries : Env :=
  {| this := {| _capturedObjectMap :=
                  [("c1", "u_cfg"); ("c2", "u_cfg"); ("c3", "u_cfg")];
                _capturedObjectCount := 3 |};
     currentUpdateSet := "us_cur";
     trace := [] |}.

(** Two captured entries, both present in the configuration table. *)
Definition two_entries : Env :=
  {| this := {| _capturedObjectMap := [("c1", "u_cfg"); ("c3", "u_cfg")];
                _capturedObjectCount := 2 |};
     currentUpdateSet := "us_cur";
     trace := [] |}.

(** A record with an identifier and an empty table name. *)
Definition unnamed_x1 : GlideRecord :=
  {| sys_id := JS.str "x1"; getTableName := ""; elements := [] |}.

Definition incident_x1 : GlideRecord := Store.row "incident" "x1" [].

(** A record of table incident whose sys_id is null. *)
Definition incident_null : GlideRecord :=
  {| sys_id := JS.null; getTableName := "incident"; elements := [] |}.

(** A catalog variable of type 15 linked to a UI page, and one of type 6
    with the same link. *)
Definition catalog_rows : list GlideRecord :=
  [ Store.row "item_option_new" "v15" [("type", "15"); ("ui_page", "p1")];
    Store.row "item_option_new" "v6" [("type", "6"); ("ui_page", "p1")];
    Store.row "sys_ui_page" "p1" [("name", "page")] ].

Definition catalog_platform : Platform :=
  Store.platform catalog_rows (fun _ => "sys_ui_page") "rhino.global"
    (fun _ => None).



End Examples.

(** ** Observations for the whole API *)

(** Running [c] from a builder that satisfies [I] leaves a builder that
    satisfies [I], whatever the completion, and a value returned normally
    satisfies [Q]. *)
Definition keeps_with {A} (I : Builder -> Prop) (c : M A) (Q : A -> Prop) : Prop :=
  forall e, I (this e) ->
    I (this (snd (c e))) /\ forall a, fst (c e) = Normal a -> Q a.

(** The same for a method that takes fuel, when it gives a result. *)
Definition keepsF (I : Builder -> Prop) (c : MF unit) : Prop :=
  forall e r e', c e = Some (r, e') -> I (this e) -> I (this e').


(** Every record the platform hands out names a table. *)
Definition names_tables (P : Platform) : Prop :=
  (forall tbl conds gr, In gr (pf_query P tbl conds) -> getTableName gr <> "")
  /\ (forall gr field, getTableName (pf_getRefRecord P gr field) <> "").

(** A script: public calls one after the other, each run whatever the
    completion of the one before (the caller catches what is thrown). *)
Fixpoint run_calls (P : Platform) (fuel : nat) (calls : list PublicCall)
    (e : Env) : option Env :=
  match calls with
  | [] => Some e
  | c :: rest =>
      match run P fuel c e with
      | Some (_, e') => run_calls P fuel rest e'
      | None => None
      end
  end.

(** The call is one of the capture functions, not [writeUpdateSet]. *)
Definition is_capture (c : PublicCall) : bool :=
  match c with
  | call_writeUpdateSet _ => false
  | _ => true
  end.

(** [c] completes normally from every environment, with a value that
    satisfies [Q]. *)
Definition completes {A} (c : M A) (Q : A -> Prop) : Prop :=
  forall e, exists a, fst (c e) = Normal a /\ Q a.

(** The capture functions that, once their subject is found, only query and
    record. *)
Definition simple_capture (c : PublicCall) : bool :=
  match c with
  | call_captureTableNumber _
  | call_captureACLsForTable _
  | call_captureUIPolicesForTable _
  | call_captureDataPolicesForTable _
  | call_captureApplicationMenuAndModules _
  | call_captureCatalogUIPolicy _
  | call_captureServiceCatalogVariable _ => true
  | _ => false
  end.

(** The lookup by which a public function checks that what it is asked to
    capture exists, for the functions that start with such a check. *)
Definition existence_check (P : Platform) (c : PublicCall)
  : option (string * list Condition) :=
  match c with
  | call_captureTableWithRelatedObjects t
  | call_captureACLsForTable t
  | call_captureACLsForTableAndField t _
  | call_captureUIPolicesForTable t
  | call_captureDataPolicesForTable t
  | call_captureTableNumber t =>
      Some (TABLES.SYS_DB_OBJECT, [addQuery "name" (JS.to_string t)])
  | call_captureTableFieldAndAssociatedObjects t f =>
      Some (TABLES.SYS_DICTIONARY,
            [addQuery "name" (JS.to_string t); addQuery "element" (JS.to_string f)])
  | call_captureServiceCatalogItem i =>
      Some (TABLES.CATALOG_ITEM, [addQuery "sys_id" (JS.to_string i)])
  | call_captureDatabaseView v =>
      Some (TABLES.DATABASE_VIEW, [addQuery "name" (JS.to_string v)])
  | call_captureApplicationMenuAndModules m =>
      Some (TABLES.APPLICATION_MENU, [addQuery "sys_id" (JS.to_string m)])
  | call_captureScriptIncludeByName n =>
      Some (TABLES.SCRIPT_INCLUDE,
            [addQuery "api_name"
               (JS.to_string (_getCurrentScopeName P) ++ "." ++ JS.to_string n)])
  | call_captureUserRole r =>
      Some (TABLES.ROLE,
            [addQuery "sys_scope" (JS.to_string (_getCurrentScopeName P));
             addQuery "name" (JS.to_string r)])
  | call_captureApplicationRecord a =>
      Some (TABLES.SYS_APPLICATION, [addQuery "name" (JS.to_string a)])
  | call_captureSystemPropertyCategoryWithAssociations n =>
      Some (TABLES.SYS_PROPERTIES_CATEGORY, [addQuery "name" (JS.to_string n)])
  | call_captureSystemProperty n =>
      Some (TABLES.SYS_PROPERTIES, [addQuery "name" (JS.to_string n)])
  | call_captureEventRegistration n =>
      Some (TABLES.SYS_EVENT, [addQuery "event_name" (JS.to_string n)])
  | call_captureArchivalRule r =>
      Some (TABLES.ARCHIVE_RULE, [addQuery "sys_id" (JS.to_string r)])
  | call_captureCatalogUIPolicy i =>
      Some (TABLES.CATALOG_ITEM_UI_POLICY, [addQuery "sys_id" (JS.to_string i)])
  | call_captureServiceCatalogVariable v =>
      Some (TABLES.CATALOG_ITEM_VARIABLE, [addQuery "sys_id" (JS.to_string v)])
  | call_writeUpdateSet _
  | call_captureDataRecordsFromTable _ _
  | call_captureDataRecord _
  | call_captureListLayoutsForTable _
  | call_captureFormLayoutsForTable _ => None
  end.

(** The archive rules reachable from rule [id] through related records,
    leaving out references of a rule to itself, are at most [n] deep. *)
Fixpoint expands_within (P : Platform) (n : nat) (id : string) : bool :=
  match n with
  | 0 => false
  | S n' =>
      match hd_error (pf_query P TABLES.ARCHIVE_RULE [addQuery "sys_id" id]) with
      | None => true
      | Some _ =>
          forallb
            (fun rel =>
               let chld := element rel "table_archive_rule" in
               (chld =? "") || (chld =? id) || expands_within P n' chld)
            (pf_query P TABLES.ARCHIVE_RULE_RELATED [addQuery "archive_map" id])
      end
  end.

(** Rows inserted, most recent first. *)
Fixpoint inserted (t : list Event) : list GlideRecord :=
  match t with
  | [] => []
  | EvInsert gr :: rest => gr :: inserted rest
  | _ :: rest => inserted rest
  end.

(** The update sets that [saveRecord] wrote into, most recent first. *)
Fixpoint saved_into (t : list Event) : list string :=
  match t with
  | [] => []
  | EvSaveRecord us _ :: rest => us :: saved_into rest
  | _ :: rest => saved_into rest
  end.

(** The update set [writeUpdateSet] writes to: the first one the query by
    scope and name finds, or else the row it inserts. *)
Definition target_update_set (P : Platform) (scopeSysId name : string)
  : GlideRecord :=
  match pf_query P TABLES.UPDATE_SET
          [addQuery "application" scopeSysId; addQuery "name" name] with
  | usGR :: _ => usGR
  | [] =>
      let els := [("application", scopeSysId); ("name", name)] in
      {| sys_id := JS.str (pf_insert P {| sys_id := JS.null;
                                          getTableName := TABLES.UPDATE_SET;
                                          elements := els |});
         getTableName := TABLES.UPDATE_SET;
         elements := els |}
  end.



(** The conditions [captureDataRecordsFromTable] loads for its optional
    encoded query. *)
Definition data_conditions (queryCondition : JS.value) : list Condition :=
  if JS.nil queryCondition then []
  else [addEncodedQuery (JS.to_string queryCondition)].

(** * xBufferedLogger: the buffered logger

    The logger object is a record of its statement queue, its current level
    ([None] is [null]) and its separator.  A level value is a JavaScript
    number; the values the logger meets are integers (its own constants and
    what [parseInt] returns), so a number is a [Z] here, and the argument of
    [setLogLevel] is [None] for [null] or [undefined].  The platform's
    [gs.getProperty(name, "")] and the built-in [parseInt] ([None] is [NaN])
    are parameters.  Reading [this.currentLevel.value] when the level is
    [null] makes the engine throw a TypeError; its text is the engine's. *)

From Stdlib Require Import ZArith.

Module Logger.

Record Level : Type := {
  value : Z;
  label : string
}.

(** [xBufferedLogger.LOG_LEVEL] *)
Definition DEBUG : Level := {| value := 10000; label := "[DEBUG]" |}.
Definition INFO : Level := {| value := 20000; label := "[INFO]" |}.
Definition WARN : Level := {| value := 30000; label := "[WARN]" |}.
Definition ERROR : Level := {| value := 40000; label := "[ERROR]" |}.
Definition FATAL : Level := {| value := 50000; label := "[FATAL]" |}.

(** The levels as [for (var i in xBufferedLogger.LOG_LEVEL)] meets them. *)
Definition LOG_LEVEL : list Level := [DEBUG; INFO; WARN; ERROR; FATAL].

Record t : Type := {
  stmtQueue : list string;
  currentLevel : option Level;
  _separatorChar : string
}.

Definition L (A : Type) : Type := t -> Completion A * t.

Definition type_error : string := "TypeError".

(** ["" + n] for an integer. *)
Definition of_Z (n : Z) : string := NilZero.string_of_int (Z.to_int n).

(** [setLogLevel(logLevelVal)] *)
Definition setLogLevel (logLevelVal : option Z) : L unit :=
  fun lg =>
    match logLevelVal with
    | None =>
        (Throw "xBufferedLogger.setLogLevel: xBufferedLogger: must specify log level upon creation!",
         lg)
    | Some v =>
        let found := find (fun lvl => Z.eqb v (value lvl)) LOG_LEVEL in
        let lg' := {| stmtQueue := stmtQueue lg;
                      currentLevel := found;
                      _separatorChar := _separatorChar lg |} in
        match found with
        | None =>
            (Throw ("xBufferedLogger: Invalid log level '" ++ of_Z v ++ "' specified"),
             lg')
        | Some _ => (Normal tt, lg')
        end
    end.

Definition setLogLevelDebug : L unit := setLogLevel (Some (value DEBUG)).
Definition setLogLevelInfo : L unit := setLogLevel (Some (value INFO)).
Definition setLogLevelWarn : L unit := setLogLevel (Some (value WARN)).
Definition setLogLevelError : L unit := setLogLevel (Some (value ERROR)).
Definition setLogLevelFatal : L unit := setLogLevel (Some (value FATAL)).

(** The object before [initialize] runs; its queue is [null] until
    [initialize] sets it, which no method can see. *)
Definition prototype : t :=
  {| stmtQueue := []; currentLevel := None; _separatorChar := newline |}.

(** [initialize] *)
Definition initialize : L unit :=
  fun lg =>
    match setLogLevelError lg with
    | (Normal _, lg1) =>
        (Normal tt, {| stmtQueue := [];
                       currentLevel := currentLevel lg1;
                       _separatorChar := _separatorChar lg1 |})
    | (Throw ex, lg1) => (Throw ex, lg1)
    end.

(** [new xBufferedLogger()] *)
Definition new : t := snd (initialize prototype).

(** [_doLog(message, level)] *)
Definition _doLog (message : JS.value) (level : Level) : L unit :=
  fun lg =>
    match currentLevel lg with
    | None => (Throw type_error, lg)
    | Some cur =>
        if Z.gtb (value cur) (value level) then (Normal tt, lg)
        else
          (Normal tt,
           {| stmtQueue := stmtQueue lg
                           ++ [label level ++ ": " ++ JS.to_string message];
              currentLevel := currentLevel lg;
              _separatorChar := _separatorChar lg |})
    end.

Definition debug (message : JS.value) : L unit := _doLog message DEBUG.
Definition info (message : JS.value) : L unit := _doLog message INFO.
Definition warn (message : JS.value) : L unit := _doLog message WARN.
Definition error (message : JS.value) : L unit := _doLog message ERROR.
Definition fatal (message : JS.value) : L unit := _doLog message FATAL.

(** [setSeparatorChar(val)] *)
Definition setSeparatorChar (val : JS.value) : L unit :=
  fun lg => (Normal tt, {| stmtQueue := stmtQueue lg;
                           currentLevel := currentLevel lg;
                           _separatorChar := JS.to_string val |}).

(** [getSeparatorChar()] *)
Definition getSeparatorChar : L string := fun lg => (Normal (_separatorChar lg), lg).

(** [_clearStmtQueue()] *)
Definition _clearStmtQueue : L unit :=
  fun lg => (Normal tt, {| stmtQueue := [];
                           currentLevel := currentLevel lg;
                           _separatorChar := _separatorChar lg |}).

(** [flush()]: the queue holds strings, so [join] does not throw; the
    [finally] block clears the queue after the result is computed. *)
Definition flush : L string :=
  fun lg =>
    let joined := String.concat (_separatorChar lg) (stmtQueue lg) in
    (Normal joined, snd (_clearStmtQueue lg)).

(** [isDebugLevelEnabled()] and its four siblings. *)
Definition level_enabled (level : Level) : L bool :=
  fun lg =>
    match currentLevel lg with
    | None => (Throw type_error, lg)
    | Some cur => (Normal (Z.leb (value cur) (value level)), lg)
    end.

Definition isDebugLevelEnabled : L bool := level_enabled DEBUG.
Definition isInfoLevelEnabled : L bool := level_enabled INFO.
Definition isWarnLevelEnabled : L bool := level_enabled WARN.
Definition isErrorLevelEnabled : L bool := level_enabled ERROR.
Definition isFatalLevelEnabled : L bool := level_enabled FATAL.

Section SysProperty.

(** [gs.getProperty(name, "")] *)
Variable getProperty : string -> string.
(** [parseInt(s)]; [None] is [NaN]. *)
Variable parseInt : string -> option Z.

(** [setLogLevelBySysProperty(propertyName)] *)
Definition setLogLevelBySysProperty (propertyName : JS.value) : L unit :=
  fun lg =>
    if JS.nil propertyName then
      (Throw "xBufferedLogger.setLogLevelBySysProperty: parameter 'propertyName' is required!",
       lg)
    else
      let propertyName := JS.to_string propertyName in
      let propVal := getProperty propertyName in
      if JS.nil (JS.str propVal) then
        (Throw ("xBufferedLogger.setLogLevelBySysProperty: System property '"
                ++ propertyName ++ "' is either not set or doesn't exist!"), lg)
      else
        match parseInt propVal with
        | None =>
            (Throw ("xBufferedLogger.setLogLevelBySysProperty: System property '"
                    ++ propertyName ++ "' value is '" ++ propVal
                    ++ "' is not an integer and therefore is not a valid log level!"),
             lg)
        | Some propValInt =>
            match setLogLevel (Some propValInt) lg with
            | (Normal _, lg') => (Normal tt, lg')
            | (Throw _, lg') =>
                (Throw ("xBufferedLogger.setLogLevelBySysProperty: System property '"
                        ++ propertyName ++ "' value is '" ++ propVal
                        ++ "', which is not a valid log level (must be an integer)!"),
                 lg')
            end
        end.

End SysProperty.

(** The five logging methods, by severity. *)
Inductive Severity : Type := SDebug | SInfo | SWarn | SError | SFatal.

Definition level_of (s : Severity) : Level :=
  match s with
  | SDebug => DEBUG
  | SInfo => INFO
  | SWarn => WARN
  | SError => ERROR
  | SFatal => FATAL
  end.

Definition log (s : Severity) (message : JS.value) : L unit :=
  match s with
  | SDebug => debug message
  | SInfo => info message
  | SWarn => warn message
  | SError => error message
  | SFatal => fatal message
  end.

Definition is_enabled (s : Severity) : L bool :=
  match s with
  | SDebug => isDebugLevelEnabled
  | SInfo => isInfoLevelEnabled
  | SWarn => isWarnLevelEnabled
  | SError => isErrorLevelEnabled
  | SFatal => isFatalLevelEnabled
  end.

(** The logger after the statements of [entries] were logged in order. *)
Fixpoint log_all (entries : list (Severity * JS.value)) (lg : t) : t :=
  match entries with
  | [] => lg
  | (s, message) :: rest => log_all rest (snd (log s message lg))
  end.

(** The queue entry of a statement. *)
Definition statement (entry : Severity * JS.value) : string :=
  label (level_of (fst entry)) ++ ": " ++ JS.to_string (snd entry).

(** The statement's level is at or above level [cur]. *)
Definition passes (cur : Level) (entry : Severity * JS.value) : bool :=
  Z.leb (value cur) (value (level_of (fst entry))).

End Logger.

(** ** More example data *)

Module MoreExamples.

(** A record producer stored in the catalog item table. *)
Definition producer_rows : list GlideRecord :=
  [ Store.row "sc_cat_item" "rp1"
      [("name", "Report an issue"); ("sys_class_name", "sc_cat_item_producer")] ].

Definition producer_platform : Platform :=
  Store.platform producer_rows (fun _ => "sc_cat_item") "rhino.global"
    (fun _ => None).

(** Archive rule A with a related record that references rule B, and B with
    a related record that references B itself. *)
Definition archive_chain : list GlideRecord :=
  [ Store.row "sys_archive" "A" [("name", "rule A")];
    Store.row "sys_archive" "B" [("name", "rule B")];
    Store.row "sys_archive_related" "rAB"
      [("archive_map", "A"); ("table_archive_rule", "B")];
    Store.row "sys_archive_related" "rBB"
      [("archive_map", "B"); ("table_archive_rule", "B")] ].

Definition chain_platform : Platform :=
  Store.platform archive_chain (fun _ => "sys_archive") "rhino.global"
    (fun _ => None).

(** A builder that has captured the view [vw1]. *)
Definition view_captured : Env :=
  {| this := {| _capturedObjectMap := [("vw1", "sys_ui_view")];
                _capturedObjectCount := 1 |};
     currentUpdateSet := "us_cur";
     trace := [] |}.


(** A script on the catalog: a variable captured twice, a policy that does
    not exist, a commit in a session that has no scope row. *)
Definition catalog_script : list PublicCall :=
  [ call_captureServiceCatalogVariable (JS.str "v15");
    call_captureServiceCatalogVariable (JS.str "v15");
    call_captureCatalogUIPolicy (JS.str "nope");
    call_captureServiceCatalogVariable (JS.str "v6");
    call_writeUpdateSet (JS.str "Release 1") ].

(** Statements at every severity. *)
Definition five_statements : list (Logger.Severity * JS.value) :=
  [ (Logger.SDebug, JS.str "d"); (Logger.SError, JS.str "e");
    (Logger.SInfo, JS.null); (Logger.SFatal, JS.str "f");
    (Logger.SWarn, JS.undefined) ].

(** A property table with one level property, and a reading of decimal
    digits that knows the two values it is asked about. *)
Definition properties (name : string) : string :=
  if name =? "log.level" then "20000"
  else if name =? "log.bad" then "12" else "".

Definition read_int (s : string) : option Z :=
  if s =? "20000" then Some 20000%Z
  else if s =? "12" then Some 12%Z else None.

End MoreExamples.

(** * Properties *)

(** ** The captured-object map *)


Lemma assoc_get_none_not_key (m : ObjectMap) (k : string) :
  assoc_get m k = None -> ~ In k (map fst m).
Proof.
  induction m as [|[k' v'] m IH]; simpl; [tauto|].
  destruct (k' =? k) eqn:E; [discriminate|].
  intros H [Hk|Hk]; [|now apply IH].
  subst k'. now rewrite String.eqb_refl in E.
Qed.

Lemma map_set_absent (m : ObjectMap) (k v : string) :
  assoc_get m k = None -> map_set m k v = (m ++ [(k, v)])%list.
Proof.
  induction m as [|[k' v'] m IH]; simpl; [reflexivity|].
  destruct (k' =? k); [discriminate|].
  intros H. now rewrite IH.
Qed.

Lemma assoc_get_in (m : ObjectMap) (k v : string) :
  assoc_get m k = Some v -> In (k, v) m.
Proof.
  induction m as [|[k' v'] m IH]; simpl; [discriminate|].
  destruct (k' =? k) eqn:E.
  - apply String.eqb_eq in E. subst k'. intros [= ->]. now left.
  - intros H. right. now apply IH.
Qed.

Lemma truthy_not_empty (s : string) : JS.truthy s = true <-> s <> "".
Proof.
  unfold JS.truthy. destruct (s =? "") eqn:E; simpl.
  - apply String.eqb_eq in E. split; [discriminate | contradiction].
  - apply String.eqb_neq in E. split; auto.
Qed.

(** ** [_recordObject] and [_flushObjectCache] *)

Lemma recordObject_normal (gr : option GlideRecord) (e : Env) :
  fst (_recordObject gr e) = Normal tt.
Proof.
  destruct gr as [gr|]; [|reflexivity].
  unfold _recordObject, bind, get_this, set_this, gs_log, emit, ret.
  now destruct (map_falsy _ _).
Qed.

Lemma recordObject_eta (gr : option GlideRecord) (e : Env) :
  _recordObject gr e = (Normal tt, snd (_recordObject gr e)).
Proof.
  rewrite <- (recordObject_normal gr e) at 1. now destruct (_recordObject gr e).
Qed.

Lemma recordObject_present (gr : GlideRecord) (e : Env) :
  map_falsy (_capturedObjectMap (this e)) (JS.to_string (sys_id gr)) = false ->
  _recordObject (Some gr) e = (Normal tt, e).
Proof.
  intros H. unfold _recordObject, bind, get_this, ret. now rewrite H.
Qed.

Lemma recordObject_absent (gr : GlideRecord) (e : Env) :
  map_falsy (_capturedObjectMap (this e)) (JS.to_string (sys_id gr)) = true ->
  snd (_recordObject (Some gr) e) =
  {| this := {| _capturedObjectMap :=
                  map_set (_capturedObjectMap (this e))
                    (JS.to_string (sys_id gr)) (getTableName gr);
                _capturedObjectCount := S (_capturedObjectCount (this e)) |};
     currentUpdateSet := currentUpdateSet e;
     trace := EvLog ("Captured '" ++ getTableName gr ++ " object with sys_id '"
                     ++ JS.to_string (sys_id gr) ++ "'") :: trace e |}.
Proof.
  intros H. unfold _recordObject, bind, get_this, set_this, gs_log, emit.
  now rewrite H.
Qed.

(** The builder after [_recordObject] depends on the builder alone. *)
Lemma recordObject_this (gr : GlideRecord) (e : Env) :
  this (snd (_recordObject (Some gr) e)) = recorded gr (this e).
Proof.
  unfold recorded.
  destruct (map_falsy (_capturedObjectMap (this e)) (JS.to_string (sys_id gr))) eqn:H.
  - rewrite !recordObject_absent by exact H. reflexivity.
  - rewrite !recordObject_present by exact H. reflexivity.
Qed.





(** C6, as stated, fails: a record whose sys_id is null is not skipped; it is
    recorded under the key "null" and counted. *)
Lemma recordObject_null_sys_id_is_recorded :
  JS.nil (sys_id Examples.incident_null) = true
  /\ this (snd (_recordObject (Some Examples.incident_null) (fresh ""))) =
     {| _capturedObjectMap := [("null", "incident")]; _capturedObjectCount := 1 |}
  /\ this (snd (_recordObject (Some Examples.incident_null) (fresh "")))
     <> this (fresh "").
Proof.
  repeat split. vm_compute. discriminate.
Qed.

(** C6 (amended): [_recordObject] never throws, and it is a silent no-op when
    the record passed to it is itself null or undefined: map, counter and log
    are unchanged. *)
Theorem recordObject_nil_record_noop :
  (forall (gr : option GlideRecord) (e : Env), fst (_recordObject gr e) = Normal tt)
  /\ (forall e : Env, _recordObject None e = (Normal tt, e)).
Proof.
  split; [exact recordObject_normal | reflexivity].
Qed.

(** ** The counter and the keys of the map *)

Lemma consistent_initialize : consistent initialize.
Proof.
  repeat split; simpl; constructor.
Qed.

Lemma consistent_counts (b : Builder) :
  consistent b -> getObjectCount b = distinct_keys (_capturedObjectMap b).
Proof.
  intros (Hnd & Hc & _). unfold getObjectCount, distinct_keys.
  rewrite nodup_fixed_point by exact Hnd. now rewrite length_map.
Qed.

Lemma falsy_in_consistent (m : ObjectMap) (k : string) :
  Forall (fun kv => JS.truthy (snd kv) = true) m ->
  map_falsy m k = true -> assoc_get m k = None.
Proof.
  intros Hall Hf. unfold map_falsy in Hf.
  destruct (assoc_get m k) as [v|] eqn:E; [|reflexivity].
  apply assoc_get_in in E. rewrite Forall_forall in Hall.
  specialize (Hall _ E). simpl in Hall. now rewrite Hall in Hf.
Qed.

Lemma consistent_recorded (gr : GlideRecord) (e : Env) :
  JS.truthy (getTableName gr) = true ->
  consistent (this e) -> consistent (this (snd (_recordObject (Some gr) e))).
Proof.
  intros Ht (Hnd & Hc & Hall).
  destruct (map_falsy (_capturedObjectMap (this e)) (JS.to_string (sys_id gr))) eqn:H.
  - rewrite recordObject_absent by exact H. simpl.
    pose proof (falsy_in_consistent _ _ Hall H) as Hnone.
    rewrite (map_set_absent _ _ _ Hnone).
    repeat split; simpl.
    + rewrite map_app. simpl. apply NoDup_app; [exact Hnd | |].
      * constructor; [intros [] | constructor].
      * intros a Ha [<-|[]]. now apply (assoc_get_none_not_key _ _ Hnone).
    + rewrite length_app. simpl. lia.
    + apply Forall_app. split; [exact Hall|]. now constructor.
  - rewrite recordObject_present by exact H. now repeat split.
Qed.

Lemma consistent_step (o : Op) (e : Env) :
  names_table o = true -> consistent (this e) -> consistent (this (snd (step o e))).
Proof.
  destruct o as [[gr|]|]; simpl; intros Ht Hc.
  - now apply consistent_recorded.
  - exact Hc.
  - exact consistent_initialize.
Qed.

Lemma consistent_run_ops (ops : list Op) (e : Env) :
  forallb names_table ops = true ->
  consistent (this e) -> consistent (this (run_ops ops e)).
Proof.
  revert e. induction ops as [|o ops IH]; intros e Hall Hc; simpl; [exact Hc|].
  simpl in Hall. apply andb_prop in Hall as [Ho Hrest].
  apply IH; [exact Hrest|]. now apply consistent_step.
Qed.

(** C10, as stated, fails: after recording twice a record whose table name is
    empty the map has one key and the counter is 2. *)
Lemma counter_exceeds_distinct_keys_unnamed :
  let b := this (run_ops [op_record (Some Examples.unnamed_x1);
                          op_record (Some Examples.unnamed_x1)] (fresh "")) in
  getObjectCount b = 2 /\ distinct_keys (_capturedObjectMap b) = 1
  /\ getObjectCount b <> distinct_keys (_capturedObjectMap b).
Proof.
  repeat split. vm_compute. discriminate.
Qed.

(** C10 (amended): in every state reached from a freshly constructed builder
    by a sequence of [_recordObject] and [_flushObjectCache] operations whose
    recorded records all have a non-empty table name, [getObjectCount] is the
    number of distinct keys of the captured-object map. *)
Theorem counter_matches_distinct_keys (ops : list Op) (us : string) :
  forallb names_table ops = true ->
  let b := this (run_ops ops (fresh us)) in
  getObjectCount b = distinct_keys (_capturedObjectMap b).
Proof.
  intros Hall b. apply consistent_counts. subst b.
  apply consistent_run_ops; [exact Hall | exact consistent_initialize].
Qed.

Lemma counter_matches_distinct_keys_witness :
  let b := this (run_ops [op_record (Some Examples.incident_x1);
                          op_record None;
                          op_record (Some Examples.incident_null);
                          op_flush;
                          op_record (Some Examples.incident_x1);
                          op_record (Some Examples.incident_x1)] (fresh "")) in
  getObjectCount b = distinct_keys (_capturedObjectMap b).
Proof.
  apply (counter_matches_distinct_keys
           [op_record (Some Examples.incident_x1);
            op_record None;
            op_record (Some Examples.incident_null);
            op_flush;
            op_record (Some Examples.incident_x1);
            op_record (Some Examples.incident_x1)] "").
  reflexivity.
Defined.

(** ** Running the monad *)

Lemma bind_normal {A B} (c : M A) (k : A -> M B) (a : A) (e : Env) :
  fst (c e) = Normal a -> bind c k e = k a (snd (c e)).
Proof.
  unfold bind. destruct (c e) as [[a'|ex] e']; simpl; intros H; now inversion H.
Qed.

Lemma bind_throw {A B} (c : M A) (k : A -> M B) (ex : string) (e : Env) :
  fst (c e) = Throw ex -> bind c k e = (Throw ex, snd (c e)).
Proof.
  unfold bind. destruct (c e) as [[a'|ex'] e']; simpl; intros H; now inversion H.
Qed.

Lemma gr_query_run (P : Platform) (tbl : string) (conds : list Condition) (e : Env) :
  gr_query P tbl conds e = (Normal (pf_query P tbl conds), after_query tbl conds e).
Proof. reflexivity. Qed.

Lemma gr_get_run (P : Platform) (tbl id : string) (e : Env) :
  gr_get P tbl id e =
  (Normal (hd_error (pf_query P tbl [addQuery "sys_id" id])),
   after_query tbl [addQuery "sys_id" id] e).
Proof. reflexivity. Qed.

Lemma gr_get_by_run (P : Platform) (tbl name value : string) (e : Env) :
  gr_get_by P tbl name value e =
  (Normal (hd_error (pf_query P tbl [addQuery name value])),
   after_query tbl [addQuery name value] e).
Proof. reflexivity. Qed.

(** ** Effects on the builder *)

Lemma records_ret : records (ret tt) [].
Proof. intros e. now split. Qed.

Lemma records_log (msg : string) : records (gs_log msg) [].
Proof. intros e. now split. Qed.

Lemma records_recordObject (gr : GlideRecord) : records (_recordObject (Some gr)) [gr].
Proof.
  intros e. split; [apply recordObject_normal | apply recordObject_this].
Qed.

Lemma records_bind (c1 c2 : M unit) (l1 l2 : list GlideRecord) :
  records c1 l1 -> records c2 l2 -> records (c1 ;; c2) (l1 ++ l2).
Proof.
  intros H1 H2 e. destruct (H1 e) as [Hn Ht].
  rewrite (bind_normal _ _ _ _ Hn).
  destruct (H2 (snd (c1 e))) as [Hn2 Ht2].
  split; [exact Hn2|].
  rewrite Ht2, Ht. unfold recorded_all. now rewrite fold_left_app.
Qed.

Lemma records_after_read {A} (c : M A) (a : A) (k : A -> M unit)
    (l : list GlideRecord) :
  reads c a -> records (k a) l -> records (bind c k) l.
Proof.
  intros H1 H2 e. destruct (H1 e) as [Hn Ht].
  rewrite (bind_normal _ _ _ _ Hn).
  destruct (H2 (snd (c e))) as [Hn2 Ht2].
  split; [exact Hn2|]. now rewrite Ht2, Ht.
Qed.

Lemma reads_gr_query (P : Platform) (tbl : string) (conds : list Condition) :
  reads (gr_query P tbl conds) (pf_query P tbl conds).
Proof. intros e. now split. Qed.

Lemma reads_gr_get (P : Platform) (tbl id : string) :
  reads (gr_get P tbl id) (hd_error (pf_query P tbl [addQuery "sys_id" id])).
Proof. intros e. now split. Qed.

Lemma reads_getRefRecord (P : Platform) (gr : GlideRecord) (field : string) :
  reads (getRefRecord P gr field) (pf_getRefRecord P gr field).
Proof. intros e. now split. Qed.

Lemma records_while_next (rows : list GlideRecord) :
  records (while_next rows (fun row => _recordObject (Some row))) rows.
Proof.
  induction rows as [|r rows IH]; simpl.
  - exact records_ret.
  - apply (records_bind _ _ [r] rows); [apply records_recordObject | exact IH].
Qed.

Lemma records_captureObjectsFromGRQuery (P : Platform) (tbl : string)
    (conds : list Condition) :
  records (_captureObjectsFromGRQuery P (mkQuery tbl conds)) (pf_query P tbl conds).
Proof.
  unfold _captureObjectsFromGRQuery, mkQuery; simpl.
  eapply records_after_read; [apply reads_gr_query | apply records_while_next].
Qed.

Lemma records_record_linked (P : Platform) (varGR : GlideRecord) (field : string)
    (warning : option string) :
  records (record_linked P varGR field warning) (linked_record P varGR field).
Proof.
  unfold record_linked, linked_record.
  destruct (element_nil varGR field); simpl; [exact records_ret|].
  apply (records_bind _ _ [] [pf_getRefRecord P varGR field]).
  - destruct warning; [apply records_log | exact records_ret].
  - eapply records_after_read; [apply reads_getRefRecord | apply records_recordObject].
Qed.

(** ** Unique lookup *)


(** ** Catalog variables *)

(** C9: for a catalog variable found by its sys_id,
    [captureServiceCatalogVariable] completes normally and its effect on the
    builder is to record the variable and then the auxiliary objects that the
    type field selects (UI page for 15, question choices for 3 and 5, macro,
    summary macro, SP widget and macroponent for 14 and 17); for any other
    type the variable alone is recorded. *)
Theorem captureServiceCatalogVariable_dispatch (P : Platform)
    (varSysId : JS.value) (varGR : GlideRecord) (e : Env) :
  JS.nil varSysId = false ->
  hd_error (pf_query P TABLES.CATALOG_ITEM_VARIABLE
              [addQuery "sys_id" (JS.to_string varSysId)]) = Some varGR ->
  fst (captureServiceCatalogVariable P varSysId e) = Normal tt
  /\ this (snd (captureServiceCatalogVariable P varSysId e)) =
     recorded_all (spec_auxiliary_objects P varGR) (recorded varGR (this e))
  /\ (~ In (element varGR "type") ["15"; "3"; "5"; "14"; "17"] ->
      this (snd (captureServiceCatalogVariable P varSysId e)) =
      recorded varGR (this e)).
Proof.
  intros Hnil Hget.
  assert (Hrec : records (captureServiceCatalogVariable P varSysId)
                   (varGR :: spec_auxiliary_objects P varGR)).
  { unfold captureServiceCatalogVariable. rewrite Hnil.
    eapply records_after_read; [apply reads_gr_get|]. rewrite Hget.
    apply (records_bind _ _ [varGR]); [apply records_recordObject|].
    unfold spec_auxiliary_objects.
    destruct (element varGR "type" =? "14") eqn:E14;
      [apply String.eqb_eq in E14; rewrite E14; simpl;
       repeat apply records_bind; apply records_record_linked|].
    destruct (element varGR "type" =? "17") eqn:E17;
      [apply String.eqb_eq in E17; rewrite E17; simpl;
       repeat apply records_bind; apply records_record_linked|].
    simpl.
    destruct (element varGR "type" =? "3") eqn:E3;
      [apply String.eqb_eq in E3; rewrite E3; simpl;
       apply records_captureObjectsFromGRQuery|].
    destruct (element varGR "type" =? "5") eqn:E5;
      [apply String.eqb_eq in E5; rewrite E5; simpl;
       apply records_captureObjectsFromGRQuery|].
    simpl.
    destruct (element varGR "type" =? "15") eqn:E15;
      [apply records_record_linked | exact records_ret]. }
  destruct (Hrec e) as [Hn Ht].
  split; [exact Hn|]. split; [exact Ht|].
  intros Hother. rewrite Ht. unfold spec_auxiliary_objects.
  destruct (element varGR "type" =? "15") eqn:E15;
    [apply String.eqb_eq in E15; exfalso; apply Hother; rewrite E15; simpl; tauto|].
  destruct (element varGR "type" =? "3") eqn:E3;
    [apply String.eqb_eq in E3; exfalso; apply Hother; rewrite E3; simpl; tauto|].
  destruct (element varGR "type" =? "5") eqn:E5;
    [apply String.eqb_eq in E5; exfalso; apply Hother; rewrite E5; simpl; tauto|].
  destruct (element varGR "type" =? "14") eqn:E14;
    [apply String.eqb_eq in E14; exfalso; apply Hother; rewrite E14; simpl; tauto|].
  destruct (element varGR "type" =? "17") eqn:E17;
    [apply String.eqb_eq in E17; exfalso; apply Hother; rewrite E17; simpl; tauto|].
  reflexivity.
Qed.


(** The public functions that look one record up go through
    [_captureUniqueGRObject] with their own query. *)
Lemma unique_lookup_callers (P : Platform) (v : JS.value) (e : Env) :
  JS.nil v = false ->
  captureScriptIncludeByName P v e =
    (_captureUniqueGRObject P
       (mkQuery TABLES.SCRIPT_INCLUDE
          [addQuery "api_name"
             (JS.to_string (_getCurrentScopeName P) ++ "." ++ JS.to_string v)])
       "xSNUpdateSetBuilder.captureScriptIncludeByName" ;; ret tt) e
  /\ captureUserRole P v e =
    (_captureUniqueGRObject P
       (mkQuery TABLES.ROLE
          [addQuery "sys_scope" (JS.to_string (_getCurrentScopeName P));
           addQuery "name" (JS.to_string v)])
       "xSNUpdateSetBuilder.captureUserRole" ;; ret tt) e
  /\ captureApplicationRecord P v e =
    (_captureUniqueGRObject P
       (mkQuery TABLES.SYS_APPLICATION [addQuery "name" (JS.to_string v)])
       "xSNUpdateSetBuilder.captureApplicationRecord" ;; ret tt) e
  /\ captureSystemProperty P v e =
    (_captureUniqueGRObject P
       (mkQuery TABLES.SYS_PROPERTIES [addQuery "name" (JS.to_string v)])
       "xSNUpdateSetBuilder.captureSystemProperty" ;; ret tt) e
  /\ captureEventRegistration P v e =
    (_captureUniqueGRObject P
       (mkQuery TABLES.SYS_EVENT [addQuery "event_name" (JS.to_string v)])
       "xSNUpdateSetBuilder.captureEventRegistration" ;; ret tt) e.
Proof.
  intros H.
  unfold captureScriptIncludeByName, captureUserRole, captureApplicationRecord,
    captureSystemProperty, captureEventRegistration.
  rewrite H. repeat split.
Qed.

Lemma captureServiceCatalogVariable_dispatch_witness :
  fst (captureServiceCatalogVariable Examples.catalog_platform (JS.str "v15") (fresh ""))
  = Normal tt
  /\ _capturedObjectMap
       (this (snd (captureServiceCatalogVariable Examples.catalog_platform
                     (JS.str "v15") (fresh ""))))
     = [("v15", "item_option_new"); ("p1", "sys_ui_page")].
Proof.
  destruct (captureServiceCatalogVariable_dispatch Examples.catalog_platform
              (JS.str "v15")
              (Store.row "item_option_new" "v15" [("type", "15"); ("ui_page", "p1")])
              (fresh "") eq_refl eq_refl) as (Hn & Ht & _).
  split; [exact Hn|]. rewrite Ht. reflexivity.
Defined.

(** ** Parameter checks of the public API *)

(** C8: every public function called with a nil required parameter throws
    at once: no lookup is issued, nothing is logged, and the builder (map and
    counter) is as before the call. *)
Theorem public_api_fails_fast (P : Platform) (fuel : nat) (c : PublicCall) (e : Env) :
  required_nil c = true ->
  exists ex, run P (S fuel) c e = Some (Throw ex, e).
Proof.
  intros H.
  destruct c; simpl in H;
    try (match goal with
         | gr : Argument |- _ => destruct gr; try discriminate H
         end);
    try (apply orb_prop in H);
    unfold run, lift, writeUpdateSet, captureTableWithRelatedObjects,
      captureServiceCatalogItem, captureDatabaseView,
      captureApplicationMenuAndModules, captureScriptIncludeByName,
      captureUserRole, captureApplicationRecord,
      captureSystemPropertyCategoryWithAssociations, captureSystemProperty,
      captureEventRegistration, captureDataRecordsFromTable, captureDataRecord,
      captureACLsForTable, captureACLsForTableAndField,
      captureUIPolicesForTable, captureDataPolicesForTable, captureTableNumber,
      captureListLayoutsForTable, captureFormLayoutsForTable,
      captureTableFieldAndAssociatedObjects, captureCatalogUIPolicy,
      captureServiceCatalogVariable;
    try (rewrite H; unfold throw; eexists; reflexivity);
    try (unfold throw; eexists; reflexivity).
  - destruct H as [H|H]; [rewrite H; unfold throw; eexists; reflexivity|].
    destruct (JS.nil tblName); rewrite ?H; unfold throw; eexists; reflexivity.
  - destruct H as [H|H]; [rewrite H; unfold throw; eexists; reflexivity|].
    destruct (JS.nil tblName); rewrite ?H; unfold throw; eexists; reflexivity.
  - simpl. rewrite H. unfold lift, throw. eexists; reflexivity.
Qed.

Lemma public_api_fails_fast_witness :
  exists ex,
    run Examples.commit_platform 1
      (call_captureTableFieldAndAssociatedObjects (JS.str "incident") JS.undefined)
      Examples.three_entries
    = Some (Throw ex, Examples.three_entries).
Proof.
  apply (public_api_fails_fast Examples.commit_platform 0
           (call_captureTableFieldAndAssociatedObjects (JS.str "incident") JS.undefined)
           Examples.three_entries).
  reflexivity.
Defined.

(** ** The write loop of [writeUpdateSet] *)

Lemma write_entry_run (P : Platform) (entry : string * string) (e : Env) :
  write_entry P entry e =
  let e1 := after_query (snd entry) [addQuery "sys_id" (fst entry)] e in
  match entry_outcome P entry with
  | Written gr =>
      (Normal tt, {| this := this e;
                     currentUpdateSet := currentUpdateSet e;
                     trace := EvSaveRecord (currentUpdateSet e) gr :: trace e1 |})
  | Skipped => (Normal tt, e1)
  | Failed ex => (Throw ex, e1)
  end.
Proof.
  destruct entry as [id tbl]. unfold write_entry, entry_outcome.
  rewrite (bind_normal _ _ _ _ (f_equal fst (gr_get_run P tbl id e))).
  rewrite gr_get_run. simpl snd. simpl fst.
  destruct (hd_error (pf_query P tbl [addQuery "sys_id" id])) as [gr|];
    [|reflexivity].
  unfold um_saveRecord. now destruct (pf_saveRecord P gr).
Qed.

Lemma write_loop_run (P : Platform) (entries : ObjectMap) (e : Env) :
  while_next entries (write_entry P) e =
  (match first_failure P entries with
   | None => Normal tt
   | Some ex => Throw ex
   end,
   {| this := this e;
      currentUpdateSet := currentUpdateSet e;
      trace := loop_trace P (currentUpdateSet e) entries (trace e) |}).
Proof.
  revert e. induction entries as [|entry rest IH]; intros e.
  - now destruct e.
  - simpl. unfold bind. rewrite write_entry_run.
    destruct (entry_outcome P entry) as [gr| |ex]; simpl.
    + now rewrite IH.
    + now rewrite IH.
    + reflexivity.
Qed.

Lemma loop_trace_saved (P : Platform) (us : string) (entries : ObjectMap)
    (t : list Event) :
  saved_records (loop_trace P us entries t) =
  (rev (written_before_failure P entries) ++ saved_records t)%list.
Proof.
  revert t. induction entries as [|entry rest IH]; intros t; simpl; [reflexivity|].
  destruct (entry_outcome P entry) as [gr| |ex]; simpl.
  - rewrite IH. simpl. now rewrite <- app_assoc.
  - now rewrite IH.
  - reflexivity.
Qed.

Lemma loop_trace_lookups (P : Platform) (us : string) (entries : ObjectMap)
    (t : list Event) :
  lookups (loop_trace P us entries t) =
  (rev (map entry_lookup (attempted_entries P entries)) ++ lookups t)%list.
Proof.
  revert t. induction entries as [|entry rest IH]; intros t; simpl; [reflexivity|].
  destruct (entry_outcome P entry) as [gr| |ex]; simpl;
    rewrite ?IH; simpl; rewrite <- ?app_assoc; reflexivity.
Qed.

Lemma loop_trace_logged (P : Platform) (us : string) (entries : ObjectMap)
    (t : list Event) :
  logged (loop_trace P us entries t) = logged t.
Proof.
  revert t. induction entries as [|entry rest IH]; intros t; simpl; [reflexivity|].
  destruct (entry_outcome P entry) as [gr| |ex]; simpl; rewrite ?IH; reflexivity.
Qed.

Lemma loop_trace_last_set (P : Platform) (us : string) (entries : ObjectMap)
    (t : list Event) :
  last_setUpdateSet (loop_trace P us entries t) = last_setUpdateSet t.
Proof.
  revert t. induction entries as [|entry rest IH]; intros t; simpl; [reflexivity|].
  destruct (entry_outcome P entry) as [gr| |ex]; simpl; rewrite ?IH; reflexivity.
Qed.

(** ** [writeUpdateSet] block by block *)

Lemma bind_eq {A B} (c : M A) (k : A -> M B) (a : A) (e e' : Env) :
  c e = (Normal a, e') -> bind c k e = k a e'.
Proof. intros H. unfold bind. now rewrite H. Qed.

Lemma gs_log_run (msg : string) (e : Env) :
  gs_log msg e =
  (Normal tt, {| this := this e;
                 currentUpdateSet := currentUpdateSet e;
                 trace := EvLog msg :: trace e |}).
Proof. reflexivity. Qed.

Lemma gus_set_run (P : Platform) (id : string) (e : Env) :
  gus_set P id e =
  (Normal tt,
   {| this := this e;
      currentUpdateSet := if pf_setUpdateSet P id then id else currentUpdateSet e;
      trace := EvSetUpdateSet id :: trace e |}).
Proof.
  unfold gus_set, bind, emit, ret. now destruct (pf_setUpdateSet P id).
Qed.

Lemma write_try_run (P : Platform) (usGR : GlideRecord) (e0 : Env) :
  let target := JS.to_string (sys_id usGR) in
  let us := if pf_setUpdateSet P target then target else currentUpdateSet e0 in
  let t_loop :=
    loop_trace P us (_capturedObjectMap (this e0))
      (EvLog ("writeUpdateSet: Writing captured objects to update set" ++ newline)
       :: EvSetUpdateSet target
       :: EvLog ("writeUpdateSet: Moving to Update Set '" ++ element usGR "name" ++ "'")
       :: trace e0) in
  write_try P usGR e0 =
  match first_failure P (_capturedObjectMap (this e0)) with
  | None =>
      (Normal tt,
       {| this := this e0;
          currentUpdateSet := us;
          trace := EvLog "writeUpdateSet: Finished writing captured objects to update set"
                   :: t_loop |})
  | Some ex =>
      (Throw ex, {| this := this e0; currentUpdateSet := us; trace := t_loop |})
  end.
Proof.
  intros target us t_loop. unfold write_try. fold target.
  erewrite bind_eq by apply gs_log_run.
  erewrite bind_eq by apply gus_set_run.
  erewrite bind_eq by apply gs_log_run.
  erewrite bind_eq by reflexivity.
  unfold bind. rewrite write_loop_run. cbn [this currentUpdateSet trace].
  fold us. fold t_loop.
  destruct (first_failure P (_capturedObjectMap (this e0))); reflexivity.
Qed.

Lemma write_finally_run (P : Platform) (cur : string) (curGR : GlideRecord) (e : Env) :
  let final := if pf_setUpdateSet P cur then cur else currentUpdateSet e in
  write_finally P cur curGR e =
  (Normal tt,
   {| this := initialize;
      currentUpdateSet := final;
      trace :=
        EvLog (if negb (final =? cur)
               then "writeUpdateSet: WARNING: Failed to move back to originally selected update set.  MAKE SURE TO DO SO MANUALLY"
               else "writeUpdateSet: Moved back to original update set '"
                    ++ element curGR "name" ++ "' successfully")
        :: EvSetUpdateSet cur :: trace e |}).
Proof.
  intros final. unfold write_finally.
  erewrite bind_eq by reflexivity.
  erewrite bind_eq by apply gus_set_run.
  erewrite bind_eq by reflexivity.
  cbn [this currentUpdateSet trace]. fold final.
  destruct (negb (final =? cur)); reflexivity.
Qed.

(** The [try]/[catch]/[finally] statement always completes normally; what it
    leaves behind is the flushed builder and, on the trace, the write loop,
    one message for its outcome, the switch back and one message for it. *)
Lemma write_block_run (P : Platform) (usGR curGR : GlideRecord) (cur : string)
    (e0 : Env) :
  exists (final msg : string) (us : string),
    try_catch_finally (write_try P usGR) write_catch (write_finally P cur curGR) e0 =
    (Normal tt,
     {| this := initialize;
        currentUpdateSet := final;
        trace :=
          EvLog msg :: EvSetUpdateSet cur
          :: EvLog (match first_failure P (_capturedObjectMap (this e0)) with
                    | None => "writeUpdateSet: Finished writing captured objects to update set"
                    | Some ex => "writeUpdateSet: ERROR while writing update set!: " ++ ex
                    end)
          :: loop_trace P us (_capturedObjectMap (this e0))
               (EvLog ("writeUpdateSet: Writing captured objects to update set" ++ newline)
                :: EvSetUpdateSet (JS.to_string (sys_id usGR))
                :: EvLog ("writeUpdateSet: Moving to Update Set '"
                          ++ element usGR "name" ++ "'")
                :: trace e0) |})
    /\ (pf_setUpdateSet P cur = true -> final = cur).
Proof.
  unfold try_catch_finally. rewrite write_try_run.
  destruct (first_failure P (_capturedObjectMap (this e0))) as [ex|].
  - unfold write_catch. rewrite gs_log_run, write_finally_run.
    cbn [this currentUpdateSet trace].
    do 3 eexists. split; [reflexivity|]. intros H. now rewrite H.
  - rewrite write_finally_run. cbn [this currentUpdateSet trace].
    do 3 eexists. split; [reflexivity|]. intros H. now rewrite H.
Qed.

Lemma find_or_create_update_set_run (P : Platform) (scopeId name : string) (e : Env) :
  exists (usGR : GlideRecord) (e0 : Env),
    find_or_create_update_set P scopeId name e = (Normal usGR, e0)
    /\ this e0 = this e
    /\ currentUpdateSet e0 = currentUpdateSet e
    /\ saved_records (trace e0) = saved_records (trace e)
    /\ last_setUpdateSet (trace e0) = last_setUpdateSet (trace e)
    /\ logged (trace e0) <> []
    /\ tl (logged (trace e0)) = logged (trace e)
    /\ tl (lookups (trace e0)) = lookups (trace e)
    /\ lookups (trace e0) <> [].
Proof.
  unfold find_or_create_update_set.
  erewrite bind_eq by apply gr_query_run.
  destruct (pf_query P TABLES.UPDATE_SET _) as [|usGR rest].
  - unfold gr_insert.
    erewrite bind_eq by (erewrite bind_eq by reflexivity; reflexivity).
    erewrite bind_eq by apply gs_log_run.
    do 2 eexists. split; [reflexivity|]. simpl. repeat split; discriminate.
  - erewrite bind_eq by apply gs_log_run.
    do 2 eexists. split; [reflexivity|]. simpl. repeat split; discriminate.
Qed.

(** The preconditions under which [writeUpdateSet] reaches its [try] block:
    the name is not nil, the current scope resolves to [scopeGR] and the
    session's current update set to [curGR]. *)
Lemma writeUpdateSet_reaches_try (P : Platform) (updateSetName : JS.value)
    (scopeGR curGR : GlideRecord) (e : Env) :
  reaches_write_loop P updateSetName scopeGR curGR e ->
  exists (usGR : GlideRecord) (e0 : Env),
    writeUpdateSet P updateSetName e =
    try_catch_finally (write_try P usGR) write_catch
      (write_finally P (currentUpdateSet e) curGR) e0
    /\ this e0 = this e
    /\ currentUpdateSet e0 = currentUpdateSet e
    /\ saved_records (trace e0) = saved_records (trace e)
    /\ last_setUpdateSet (trace e0) = last_setUpdateSet (trace e)
    /\ length (logged (trace e0)) = 3 + length (logged (trace e))
    /\ (exists pre, length pre = 3
                    /\ lookups (trace e0) = (pre ++ lookups (trace e))%list).
Proof.
  intros (Hname & Hscope & HscopeGR & HcurGR).
  unfold writeUpdateSet. rewrite Hname.
  assert (Hsc : _getCurrentScopeGR P e =
                (Normal scopeGR,
                 after_query TABLES.SYS_SCOPE
                   [addQuery "name" (JS.to_string (_getCurrentScopeName P))] e)).
  { unfold _getCurrentScopeGR. rewrite Hscope.
    erewrite bind_eq by apply gr_get_by_run. now rewrite HscopeGR. }
  erewrite bind_eq by exact Hsc.
  erewrite bind_eq by apply gs_log_run.
  erewrite bind_eq by reflexivity.
  erewrite bind_eq by apply gr_get_run.
  cbn [this currentUpdateSet trace after_query]. rewrite HcurGR.
  erewrite bind_eq by apply gs_log_run.
  match goal with
  | |- context [bind (find_or_create_update_set P ?s ?n) _ ?env] =>
      destruct (find_or_create_update_set_run P s n env)
        as (usGR & e0 & Hrun & Hthis & Hcur & Hsaved & Hset & Hne & Htl & Hlk & Hlkne)
  end.
  erewrite bind_eq by exact Hrun.
  exists usGR, e0. cbn [this currentUpdateSet trace] in *.
  repeat split; try assumption.
  - destruct (logged (trace e0)) as [|m rest]; [contradiction|].
    simpl in Htl. subst rest. reflexivity.
  - destruct (lookups (trace e0)) as [|l rest]; [contradiction|].
    simpl in Hlk. subst rest. eexists [l; _; _]. split; reflexivity.
Qed.

Lemma written_when_no_failure (P : Platform) (entries : ObjectMap)
    (entry : string * string) (gr : GlideRecord) :
  first_failure P entries = None ->
  In entry entries -> entry_outcome P entry = Written gr ->
  In gr (written_before_failure P entries).
Proof.
  induction entries as [|x rest IH]; simpl; [tauto|].
  intros Hff [->|Hin] Hout.
  - rewrite Hout. now left.
  - destruct (entry_outcome P x); [right | | discriminate]; now apply IH.
Qed.

Lemma all_attempted_when_no_failure (P : Platform) (entries : ObjectMap) :
  first_failure P entries = None -> attempted_entries P entries = entries.
Proof.
  induction entries as [|x rest IH]; simpl; [reflexivity|].
  destruct (entry_outcome P x); intros H; try discriminate; now rewrite IH.
Qed.

(** ** Commit *)



(** C3, as stated, fails: with two captured entries that both resolve, of
    which the first throws while being written and is the only failing one,
    the second, which could be written, is neither looked up nor written. *)
Lemma write_error_stops_the_loop :
  let P := Examples.failing_platform in
  let e' := snd (writeUpdateSet P (JS.str "Release 1") Examples.two_entries) in
  entry_outcome P ("c1", "u_cfg") = Failed "write refused"
  /\ entry_outcome P ("c3", "u_cfg")
     = Written (Store.row "u_cfg" "c3" [("name", "third")])
  /\ saved_records (trace e') = []
  /\ lookups (trace e') =
     [("u_cfg", [addQuery "sys_id" "c1"]);
      ("sys_update_set", [addQuery "application" "scope0";
                          addQuery "name" "Release 1"]);
      ("sys_update_set", [addQuery "sys_id" "us_cur"]);
      ("sys_scope", [addQuery "name" "global"])]
  /\ ~ In (Store.row "u_cfg" "c3" [("name", "third")]) (saved_records (trace e')).
Proof.
  repeat split. vm_compute. tauto.
Qed.

(** C3 (amended): in the write loop an entry that does not resolve is
    skipped without a message and the entries after it are still attempted;
    an error thrown while an entry is written is caught outside the loop,
    logged once, and ends the loop.  The records written are exactly those of
    the entries that resolve, in iteration order, up to the first entry whose
    write throws; the lookups of the loop are those of the entries up to and
    including that one; when no write throws every entry is attempted and
    every entry that resolves is written; the call logs seven messages
    whatever the outcomes. *)
Theorem writeUpdateSet_write_loop_outcome (P : Platform)
    (updateSetName : JS.value) (scopeGR curGR : GlideRecord) (e : Env) :
  reaches_write_loop P updateSetName scopeGR curGR e ->
  let entries := _capturedObjectMap (this e) in
  let e' := snd (writeUpdateSet P updateSetName e) in
  saved_records (trace e') =
    (rev (written_before_failure P entries) ++ saved_records (trace e))%list
  /\ (exists pre, length pre = 3 /\
       lookups (trace e') =
         (rev (map entry_lookup (attempted_entries P entries))
          ++ pre ++ lookups (trace e))%list)
  /\ (first_failure P entries = None ->
      attempted_entries P entries = entries
      /\ forall entry gr, In entry entries ->
           entry_outcome P entry = Written gr ->
           In gr (saved_records (trace e')))
  /\ (forall ex, first_failure P entries = Some ex ->
      In ("writeUpdateSet: ERROR while writing update set!: " ++ ex)
         (logged (trace e')))
  /\ length (logged (trace e')) = 7 + length (logged (trace e)).
Proof.
  intros Hreach entries e'. subst e'.
  destruct (writeUpdateSet_reaches_try _ _ _ _ _ Hreach)
    as (usGR & e0 & Hrun & Hthis & _ & Hsaved & _ & Hlog & pre & Hpre & Hlk).
  destruct (write_block_run P usGR curGR (currentUpdateSet e) e0)
    as (final & msg & us & Hblock & _).
  rewrite Hrun, Hblock. cbn [snd trace]. rewrite Hthis. fold entries.
  assert (Hs : saved_records
                 (EvLog msg :: EvSetUpdateSet (currentUpdateSet e)
                  :: EvLog (match first_failure P entries with
                            | None => "writeUpdateSet: Finished writing captured objects to update set"
                            | Some ex => "writeUpdateSet: ERROR while writing update set!: " ++ ex
                            end)
                  :: loop_trace P us entries
                       (EvLog ("writeUpdateSet: Writing captured objects to update set" ++ newline)
                        :: EvSetUpdateSet (JS.to_string (sys_id usGR))
                        :: EvLog ("writeUpdateSet: Moving to Update Set '"
                                  ++ element usGR "name" ++ "'")
                        :: trace e0))
               = (rev (written_before_failure P entries) ++ saved_records (trace e))%list).
  { cbn [saved_records]. rewrite loop_trace_saved. cbn [saved_records].
    now rewrite Hsaved. }
  split; [exact Hs|]. split; [|split; [|split]].
  - exists pre. split; [exact Hpre|].
    cbn [lookups]. rewrite loop_trace_lookups. cbn [lookups]. now rewrite Hlk.
  - intros Hff. split; [now apply all_attempted_when_no_failure|].
    intros entry gr Hin Hout. rewrite Hs. apply in_or_app. left.
    apply -> in_rev. now apply written_when_no_failure with (entry := entry).
  - intros ex Hff. rewrite Hff. cbn [logged]. right. now left.
  - cbn [logged length]. rewrite loop_trace_logged. cbn [logged length].
    rewrite Hlog. lia.
Qed.

Lemma writeUpdateSet_write_loop_outcome_witness :
  let e' := snd (writeUpdateSet Examples.commit_platform (JS.str "Release 1")
                   Examples.three_entries) in
  entry_outcome Examples.commit_platform ("c2", "u_cfg") = Skipped
  /\ saved_records (trace e') =
     [Store.row "u_cfg" "c3" [("name", "third")];
      Store.row "u_cfg" "c1" [("name", "first")]].
Proof.
  assert (Hreach : reaches_write_loop Examples.commit_platform (JS.str "Release 1")
                     (Store.row "sys_scope" "scope0" [("name", "global")])
                     (Store.row "sys_update_set" "us_cur"
                        [("name", "Default"); ("application", "scope0")])
                     Examples.three_entries)
    by (repeat split; reflexivity).
  destruct (writeUpdateSet_write_loop_outcome _ _ _ _ _ Hreach) as (Hs & _).
  intros e'. split; [reflexivity|]. exact Hs.
Defined.

Lemma writeUpdateSet_normal (P : Platform) (updateSetName : JS.value)
    (scopeGR curGR : GlideRecord) (e : Env) :
  reaches_write_loop P updateSetName scopeGR curGR e ->
  fst (writeUpdateSet P updateSetName e) = Normal tt.
Proof.
  intros Hreach.
  destruct (writeUpdateSet_reaches_try _ _ _ _ _ Hreach) as (usGR & e0 & Hrun & _).
  destruct (write_block_run P usGR curGR (currentUpdateSet e) e0)
    as (final & msg & us & Hblock & _).
  now rewrite Hrun, Hblock.
Qed.

(** The completion of [writeUpdateSet] is decided before the write loop, by
    the parameter, the scope and the session's current update set. *)
Lemma writeUpdateSet_completion (P : Platform) (updateSetName : JS.value) (e : Env) :
  fst (writeUpdateSet P updateSetName e) =
  if JS.nil updateSetName then
    Throw "xSNUpdateSetBuilder.writeUpdateSet: parameter 'updateSetName' is nil!"
  else if JS.nil (_getCurrentScopeName P) then
    Throw "xSNUpdateSetBuilder._getCurrentScopeGR: No scope name found!"
  else
    match hd_error (pf_query P TABLES.SYS_SCOPE
                      [addQuery "name" (JS.to_string (_getCurrentScopeName P))]) with
    | None =>
        Throw ("xSNUpdateSetBuilder._getCurrentScopeGR: No scope found with name '"
               ++ JS.to_string (_getCurrentScopeName P) ++ "'")
    | Some _ =>
        match hd_error (pf_query P TABLES.UPDATE_SET
                          [addQuery "sys_id" (currentUpdateSet e)]) with
        | None =>
            Throw "xSNUpdateSetBuilder.writeUpdateSet: Unable to retrieve GR for current update set!"
        | Some _ => Normal tt
        end
    end.
Proof.
  destruct (JS.nil updateSetName) eqn:Hname.
  { unfold writeUpdateSet. now rewrite Hname. }
  destruct (JS.nil (_getCurrentScopeName P)) eqn:Hscope.
  { unfold writeUpdateSet, _getCurrentScopeGR. rewrite Hname, Hscope. reflexivity. }
  destruct (hd_error (pf_query P TABLES.SYS_SCOPE _)) as [scopeGR|] eqn:HscopeGR.
  - destruct (hd_error (pf_query P TABLES.UPDATE_SET _)) as [curGR|] eqn:HcurGR.
    + apply (writeUpdateSet_normal P updateSetName scopeGR curGR e).
      now repeat split.
    + unfold writeUpdateSet. rewrite Hname.
      assert (Hsc : _getCurrentScopeGR P e =
                    (Normal scopeGR,
                     after_query TABLES.SYS_SCOPE
                       [addQuery "name" (JS.to_string (_getCurrentScopeName P))] e)).
      { unfold _getCurrentScopeGR. rewrite Hscope.
        erewrite bind_eq by apply gr_get_by_run. now rewrite HscopeGR. }
      erewrite bind_eq by exact Hsc.
      erewrite bind_eq by apply gs_log_run.
      erewrite bind_eq by reflexivity.
      erewrite bind_eq by apply gr_get_run.
      cbn [this currentUpdateSet trace after_query]. now rewrite HcurGR.
  - unfold writeUpdateSet. rewrite Hname.
    unfold _getCurrentScopeGR. rewrite Hscope.
    unfold bind at 1. unfold bind at 1. rewrite gr_get_by_run, HscopeGR.
    reflexivity.
Qed.

(** When [writeUpdateSet] throws, it does so before its [try] block: the
    builder is as it was, no update set was switched to and nothing was
    written. *)
Lemma writeUpdateSet_throws_before_switching (P : Platform)
    (updateSetName : JS.value) (e : Env) (ex : string) :
  fst (writeUpdateSet P updateSetName e) = Throw ex ->
  let e' := snd (writeUpdateSet P updateSetName e) in
  this e' = this e
  /\ currentUpdateSet e' = currentUpdateSet e
  /\ last_setUpdateSet (trace e') = last_setUpdateSet (trace e)
  /\ saved_records (trace e') = saved_records (trace e).
Proof.
  intros Hthrow.
  assert (Hrun : exists msg t,
             writeUpdateSet P updateSetName e =
             (Throw msg, {| this := this e;
                            currentUpdateSet := currentUpdateSet e;
                            trace := t |})
             /\ last_setUpdateSet t = last_setUpdateSet (trace e)
             /\ saved_records t = saved_records (trace e)).
  { destruct (JS.nil updateSetName) eqn:Hname.
    { unfold writeUpdateSet. rewrite Hname. eexists. exists (trace e).
      split; [now destruct e | now split]. }
    destruct (JS.nil (_getCurrentScopeName P)) eqn:Hscope.
    { unfold writeUpdateSet, _getCurrentScopeGR. rewrite Hname, Hscope.
      eexists. exists (trace e). split; [now destruct e | now split]. }
    destruct (hd_error (pf_query P TABLES.SYS_SCOPE
                          [addQuery "name" (JS.to_string (_getCurrentScopeName P))]))
      as [scopeGR|] eqn:HscopeGR.
    - destruct (hd_error (pf_query P TABLES.UPDATE_SET
                            [addQuery "sys_id" (currentUpdateSet e)]))
        as [curGR|] eqn:HcurGR.
      + rewrite (writeUpdateSet_normal P updateSetName scopeGR curGR e) in Hthrow
          by now repeat split.
        discriminate.
      + unfold writeUpdateSet. rewrite Hname.
        assert (Hsc : _getCurrentScopeGR P e =
                      (Normal scopeGR,
                       after_query TABLES.SYS_SCOPE
                         [addQuery "name" (JS.to_string (_getCurrentScopeName P))] e)).
        { unfold _getCurrentScopeGR. rewrite Hscope.
          erewrite bind_eq by apply gr_get_by_run. now rewrite HscopeGR. }
        erewrite bind_eq by exact Hsc.
        erewrite bind_eq by apply gs_log_run.
        erewrite bind_eq by reflexivity.
        erewrite bind_eq by apply gr_get_run.
        cbn [this currentUpdateSet trace after_query]. rewrite HcurGR.
        do 2 eexists. split; [reflexivity | now split].
    - unfold writeUpdateSet. rewrite Hname.
      unfold _getCurrentScopeGR. rewrite Hscope.
      unfold bind at 1. unfold bind at 1. rewrite gr_get_by_run, HscopeGR.
      do 2 eexists. split; [reflexivity | now split]. }
  destruct Hrun as (msg & t & Hrun & Hset & Hsaved).
  rewrite Hrun. now repeat split.
Qed.

(** C7, as stated, fails: [writeUpdateSet] returns the same value for an empty
    map and for a map of three entries of which two are written, so no counts
    of attempted and written entries can be read off what it returns. *)
Lemma writeUpdateSet_returns_no_counts :
  ~ exists counts : Completion unit -> nat * nat,
      forall e : Env,
        counts (fst (writeUpdateSet Examples.commit_platform (JS.str "Release 1") e))
        = (length (attempted_entries Examples.commit_platform
                     (_capturedObjectMap (this e))),
           length (written_before_failure Examples.commit_platform
                     (_capturedObjectMap (this e)))).
Proof.
  intros [counts H].
  pose proof (H Examples.three_entries) as H3.
  pose proof (H (fresh "us_cur")) as H0.
  vm_compute in H3, H0. rewrite H3 in H0. discriminate.
Qed.

(** C7 (amended): [writeUpdateSet] returns no value.  Its completion is the
    same whatever the captured-object map and the counter hold, so it carries
    neither the number of entries attempted nor the number written. *)
Theorem writeUpdateSet_result_ignores_capture_set (P : Platform)
    (updateSetName : JS.value) (b : Builder) (e : Env) :
  fst (writeUpdateSet P updateSetName (with_builder b e))
  = fst (writeUpdateSet P updateSetName e).
Proof.
  rewrite (writeUpdateSet_completion P updateSetName (with_builder b e)).
  rewrite (writeUpdateSet_completion P updateSetName e).
  destruct (JS.nil updateSetName); [reflexivity|].
  destruct (JS.nil (_getCurrentScopeName P)); reflexivity.
Qed.

(** ** Archive rules *)

Lemma bindF_recordObject {B} (gr : option GlideRecord) (k : unit -> MF B) (e : Env) :
  bindF (lift (_recordObject gr)) k e = k tt (snd (_recordObject gr e)).
Proof.
  unfold bindF, lift. now rewrite recordObject_eta.
Qed.

(** One call of [captureArchivalRule] on a rule that exists: the rule is
    recorded, then each related record, with a recursive call for every
    related record that references a rule other than this one. *)
Lemma captureArchivalRule_step (P : Platform) (fuel : nat) (id : string)
    (rul : GlideRecord) (e : Env) :
  JS.nil (JS.str id) = false ->
  hd_error (pf_query P TABLES.ARCHIVE_RULE [addQuery "sys_id" id]) = Some rul ->
  captureArchivalRule P (S fuel) (JS.str id) e =
  while_nextF (pf_query P TABLES.ARCHIVE_RULE_RELATED [addQuery "archive_map" id])
    (fun rel =>
       bindF (lift (_recordObject (Some rel))) (fun _ =>
       if negb (element_nil rel "table_archive_rule") then
         if negb (element rel "table_archive_rule" =? id) then
           captureArchivalRule P fuel (JS.str (element rel "table_archive_rule"))
         else lift (ret tt)
       else lift (ret tt)))
    (after_query TABLES.ARCHIVE_RULE_RELATED [addQuery "archive_map" id]
       (snd (_recordObject (Some rul)
               (after_query TABLES.ARCHIVE_RULE [addQuery "sys_id" id] e)))).
Proof.
  intros Hnil Hget. cbn [captureArchivalRule]. rewrite Hnil. cbn [JS.to_string].
  unfold bindF at 1. unfold lift at 1. rewrite gr_get_run, Hget.
  rewrite bindF_recordObject.
  unfold bindF at 1. unfold lift at 1. rewrite gr_query_run. reflexivity.
Qed.

(** C4: on two archive rules A and B, each with a related record that
    references the other, [captureArchivalRule("A")] returns with no amount
    of fuel: the check [chld != ruleSysId] compares the child with its
    parent only, so A calls B, B calls A, and so on. *)
Theorem captureArchivalRule_diverges_on_two_cycle (fuel : nat) (e : Env) :
  captureArchivalRule Examples.cyclic_platform fuel (JS.str "A") e = None.
Proof.
  revert e.
  assert (H : forall e,
             captureArchivalRule Examples.cyclic_platform fuel (JS.str "A") e = None
             /\ captureArchivalRule Examples.cyclic_platform fuel (JS.str "B") e = None).
  { induction fuel as [|fuel IH]; intros e; [now split|]. split.
    - rewrite (captureArchivalRule_step _ _ _
                 (Store.row "sys_archive" "A" [("name", "rule A")]))
        by reflexivity.
      change (pf_query Examples.cyclic_platform TABLES.ARCHIVE_RULE_RELATED
                [addQuery "archive_map" "A"])
        with [Store.row "sys_archive_related" "rAB"
                [("archive_map", "A"); ("table_archive_rule", "B")]].
      cbn [while_nextF]. unfold bindF at 1. rewrite bindF_recordObject.
      change (negb (element_nil
                      (Store.row "sys_archive_related" "rAB"
                         [("archive_map", "A"); ("table_archive_rule", "B")])
                      "table_archive_rule")) with true.
      cbv iota.
      change (element (Store.row "sys_archive_related" "rAB"
                         [("archive_map", "A"); ("table_archive_rule", "B")])
                "table_archive_rule") with "B".
      change (negb ("B" =? "A")) with true. cbv iota.
      now rewrite (proj2 (IH _)).
    - rewrite (captureArchivalRule_step _ _ _
                 (Store.row "sys_archive" "B" [("name", "rule B")]))
        by reflexivity.
      change (pf_query Examples.cyclic_platform TABLES.ARCHIVE_RULE_RELATED
                [addQuery "archive_map" "B"])
        with [Store.row "sys_archive_related" "rBA"
                [("archive_map", "B"); ("table_archive_rule", "A")]].
      cbn [while_nextF]. unfold bindF at 1. rewrite bindF_recordObject.
      change (negb (element_nil
                      (Store.row "sys_archive_related" "rBA"
                         [("archive_map", "B"); ("table_archive_rule", "A")])
                      "table_archive_rule")) with true.
      cbv iota.
      change (element (Store.row "sys_archive_related" "rBA"
                         [("archive_map", "B"); ("table_archive_rule", "A")])
                "table_archive_rule") with "A".
      change (negb ("A" =? "B")) with true. cbv iota.
      now rewrite (proj1 (IH _)). }
  intros e. apply H.
Qed.

(** The guard does stop a rule whose related record references the rule
    itself: the call returns after recording the rule and the related
    record. *)
Lemma captureArchivalRule_self_reference (fuel : nat) :
  option_map (fun r => (fst r, this (snd r)))
    (captureArchivalRule Examples.self_platform (S fuel) (JS.str "A") (fresh ""))
  = Some (Normal tt,
          {| _capturedObjectMap :=
               [("A", "sys_archive"); ("rAA", "sys_archive_related")];
             _capturedObjectCount := 2 |}).
Proof.
  rewrite (captureArchivalRule_step _ _ _
             (Store.row "sys_archive" "A" [("name", "rule A")]))
    by reflexivity.
  vm_compute. reflexivity.
Qed.

(** ** What every capture method keeps *)

Lemma keeps_weaken {A} (I : Builder -> Prop) (c : M A) (Q Q' : A -> Prop) :
  keeps_with I c Q -> (forall a, Q a -> Q' a) -> keeps_with I c Q'.
Proof.
  intros H HQ e HI. destruct (H e HI) as [H1 H2]. split; [exact H1|].
  intros a Ha. apply HQ. now apply H2.
Qed.

Lemma keeps_ret {A} (I : Builder -> Prop) (a : A) (Q : A -> Prop) :
  Q a -> keeps_with I (ret a) Q.
Proof.
  intros HQ e HI. split; [exact HI|]. simpl. intros a' [= <-]. exact HQ.
Qed.

Lemma keeps_throw {A} (I : Builder -> Prop) (ex : string) (Q : A -> Prop) :
  keeps_with I (throw ex) Q.
Proof.
  intros e HI. split; [exact HI|]. simpl. discriminate.
Qed.

Lemma keeps_bind {A B} (I : Builder -> Prop) (c : M A) (k : A -> M B)
    (Q1 : A -> Prop) (Q : B -> Prop) :
  keeps_with I c Q1 -> (forall a, Q1 a -> keeps_with I (k a) Q) ->
  keeps_with I (bind c k) Q.
Proof.
  intros Hc Hk e HI. destruct (Hc e HI) as [H1 H2]. unfold bind.
  destruct (c e) as [[a|ex] e1]; simpl in *.
  - apply (Hk a (H2 a eq_refl) e1 H1).
  - split; [exact H1 | discriminate].
Qed.

Lemma keeps_seq {B} (I : Builder -> Prop) (c : M unit) (k : M B) (Q : B -> Prop) :
  keeps_with I c (fun _ => True) -> keeps_with I k Q ->
  keeps_with I (c ;; k) Q.
Proof.
  intros Hc Hk. apply (keeps_bind I c _ (fun _ => True) Q Hc). now intros _ _.
Qed.

Lemma keeps_emit (I : Builder -> Prop) (ev : Event) :
  keeps_with I (emit ev) (fun _ => True).
Proof. intros e HI. now split. Qed.

Lemma keeps_log (I : Builder -> Prop) (msg : string) :
  keeps_with I (gs_log msg) (fun _ => True).
Proof. apply keeps_emit. Qed.

Lemma keeps_get_this (I : Builder -> Prop) :
  keeps_with I get_this (fun _ => True).
Proof. intros e HI. now split. Qed.

Lemma keeps_while_next {A} (I : Builder -> Prop) (rows : list A)
    (body : A -> M unit) (ok : A -> Prop) :
  Forall ok rows ->
  (forall r, ok r -> keeps_with I (body r) (fun _ => True)) ->
  keeps_with I (while_next rows body) (fun _ => True).
Proof.
  intros Hrows Hbody. induction Hrows as [|r rows Hr _ IH]; simpl.
  - now apply keeps_ret.
  - apply keeps_seq; [now apply Hbody | exact IH].
Qed.

Section Keeps.

Variable P : Platform.
Variable I : Builder -> Prop.
Variable ok : GlideRecord -> Prop.

Hypothesis record_ok :
  forall gr e, ok gr -> I (this e) -> I (this (snd (_recordObject (Some gr) e))).
Hypothesis query_ok :
  forall tbl conds gr, In gr (pf_query P tbl conds) -> ok gr.
Hypothesis ref_ok : forall gr field, ok (pf_getRefRecord P gr field).
Hypothesis named_ok : forall gr, getTableName gr <> "" -> ok gr.

Lemma keeps_recordObject (gr : GlideRecord) :
  ok gr -> keeps_with I (_recordObject (Some gr)) (fun _ => True).
Proof.
  intros Hok e HI. split; [now apply record_ok | trivial].
Qed.

Lemma keeps_gr_query (tbl : string) (conds : list Condition) :
  keeps_with I (gr_query P tbl conds) (Forall ok).
Proof.
  intros e HI. split; [exact HI|]. simpl. intros rows [= <-].
  apply Forall_forall. intros gr Hin. now apply (query_ok tbl conds).
Qed.

Lemma keeps_gr_get (tbl id : string) :
  keeps_with I (gr_get P tbl id) (fun o => forall gr, o = Some gr -> ok gr).
Proof.
  intros e HI. split; [exact HI|]. simpl. intros o [= <-] gr Hgr.
  apply (query_ok tbl [addQuery "sys_id" id]).
  destruct (pf_query P tbl [addQuery "sys_id" id]); [discriminate|].
  inversion Hgr. now left.
Qed.

Lemma keeps_gr_get_by (tbl name value : string) :
  keeps_with I (gr_get_by P tbl name value)
    (fun o => forall gr, o = Some gr -> ok gr).
Proof.
  intros e HI. split; [exact HI|]. simpl. intros o [= <-] gr Hgr.
  apply (query_ok tbl [addQuery name value]).
  destruct (pf_query P tbl [addQuery name value]); [discriminate|].
  inversion Hgr. now left.
Qed.

Lemma keeps_getRefRecord (gr : GlideRecord) (field : string) :
  keeps_with I (getRefRecord P gr field) ok.
Proof.
  intros e HI. split; [exact HI|]. simpl. intros r [= <-]. apply ref_ok.
Qed.

Lemma keeps_captureUniqueGRObject (gr : option Query) (who : string) :
  keeps_with I (_captureUniqueGRObject P gr who) ok.
Proof.
  unfold _captureUniqueGRObject. destruct gr as [q|]; [|apply keeps_throw].
  eapply keeps_bind; [apply keeps_gr_query | intros rows Hrows].
  cbv zeta.
  destruct (length rows =? 1)%nat.
  - destruct rows as [|row rest]; simpl.
    + destruct (0 <? 1)%nat; apply keeps_throw.
    + inversion Hrows; subst.
      apply keeps_seq; [now apply keeps_recordObject | now apply keeps_ret].
  - destruct (length rows <? 1)%nat; apply keeps_throw.
Qed.

(** One step of the analysis of a method body. *)
Ltac keeps_step :=
  match goal with
  | |- keeps_with _ (ret _) _ => now apply keeps_ret
  | |- keeps_with _ (throw _) _ => apply keeps_throw
  | |- keeps_with _ (gs_log _) _ => apply keeps_log
  | |- keeps_with _ (_recordObject (Some _)) _ => apply keeps_recordObject; auto
  | |- keeps_with _ (bind (gr_query _ _ _) _) _ =>
      eapply keeps_bind; [apply keeps_gr_query | intros ? ?]
  | |- keeps_with _ (bind (gr_get _ _ _) _) _ =>
      eapply keeps_bind; [apply keeps_gr_get | intros ? ?]
  | |- keeps_with _ (bind (gr_get_by _ _ _ _) _) _ =>
      eapply keeps_bind; [apply keeps_gr_get_by | intros ? ?]
  | |- keeps_with _ (bind (getRefRecord _ _ _) _) _ =>
      eapply keeps_bind; [apply keeps_getRefRecord | intros ? ?]
  | |- keeps_with _ (bind get_this _) _ =>
      eapply keeps_bind; [apply keeps_get_this | intros ? _]
  | |- keeps_with _ (bind (_captureUniqueGRObject _ _ _) _) _ =>
      eapply keeps_bind; [apply keeps_captureUniqueGRObject | intros ? ?]
  | |- keeps_with _ (bind _ (fun _ => _)) _ => apply keeps_seq
  | |- keeps_with _ (while_next _ _) _ =>
      eapply keeps_while_next; [eassumption | intros ? ?]
  | |- keeps_with _ (if ?b then _ else _) _ => destruct b
  | H : forall gr, ?o = Some gr -> ok gr |- keeps_with _ (match ?o with _ => _ end) _ =>
      destruct o; [specialize (H _ eq_refl) | clear H]
  | H : Forall ok ?rows |- keeps_with _ (match ?rows with _ => _ end) _ =>
      destruct rows; [clear H | inversion H; subst; clear H]
  | |- keeps_with _ (match ?o with _ => _ end) _ => destruct o
  | |- keeps_with _ (let (_, _) := ?x in _) _ => destruct x
  end.

Lemma keeps_captureObjectsFromGRQuery (gr : option Query) :
  keeps_with I (_captureObjectsFromGRQuery P gr) (fun _ => True).
Proof.
  unfold _captureObjectsFromGRQuery. repeat keeps_step.
Qed.

Lemma keeps_captureUIView (v : JS.value) :
  keeps_with I (_captureUIView P v) (fun _ => True).
Proof.
  unfold _captureUIView. repeat keeps_step.
Qed.


Create HintDb keeps.

Ltac keeps_auto := repeat first [keeps_step | solve [eauto with keeps]].

#[local] Hint Resolve keeps_captureObjectsFromGRQuery keeps_captureUIView : keeps.

Lemma keeps_captureTableNumber (v : JS.value) :
  keeps_with I (captureTableNumber P v) (fun _ => True).
Proof. unfold captureTableNumber. keeps_auto. Qed.

Lemma keeps_captureACLsForTable (v : JS.value) :
  keeps_with I (captureACLsForTable P v) (fun _ => True).
Proof. unfold captureACLsForTable. keeps_auto. Qed.

Lemma keeps_captureACLsForTableAndField (t f : JS.value) :
  keeps_with I (captureACLsForTableAndField P t f) (fun _ => True).
Proof. unfold captureACLsForTableAndField. keeps_auto. Qed.

Lemma keeps_captureUIPolicesForTable (v : JS.value) :
  keeps_with I (captureUIPolicesForTable P v) (fun _ => True).
Proof. unfold captureUIPolicesForTable. keeps_auto. Qed.

Lemma keeps_captureDataPolicesForTable (v : JS.value) :
  keeps_with I (captureDataPolicesForTable P v) (fun _ => True).
Proof. unfold captureDataPolicesForTable. keeps_auto. Qed.

Lemma keeps_captureListLayoutsForTable (v : JS.value) :
  keeps_with I (captureListLayoutsForTable P v) (fun _ => True).
Proof. unfold captureListLayoutsForTable. keeps_auto. Qed.

Lemma keeps_captureFormLayoutsForTable (v : JS.value) :
  keeps_with I (captureFormLayoutsForTable P v) (fun _ => True).
Proof. unfold captureFormLayoutsForTable. keeps_auto. Qed.

#[local] Hint Resolve keeps_captureTableNumber keeps_captureACLsForTable
  keeps_captureACLsForTableAndField keeps_captureUIPolicesForTable
  keeps_captureDataPolicesForTable keeps_captureListLayoutsForTable
  keeps_captureFormLayoutsForTable : keeps.

Lemma keeps_captureTableFieldAndAssociatedObjects (t f : JS.value) :
  keeps_with I (captureTableFieldAndAssociatedObjects P t f) (fun _ => True).
Proof. unfold captureTableFieldAndAssociatedObjects. keeps_auto. Qed.

#[local] Hint Resolve keeps_captureTableFieldAndAssociatedObjects : keeps.

Lemma keeps_captureTableWithRelatedObjects (v : JS.value) :
  keeps_with I (captureTableWithRelatedObjects P v) (fun _ => True).
Proof. unfold captureTableWithRelatedObjects. keeps_auto. Qed.

Lemma keeps_captureCatalogUIPolicy (v : JS.value) :
  keeps_with I (captureCatalogUIPolicy P v) (fun _ => True).
Proof. unfold captureCatalogUIPolicy. keeps_auto. Qed.

Lemma keeps_record_linked (varGR : GlideRecord) (field : string)
    (warning : option string) :
  keeps_with I (record_linked P varGR field warning) (fun _ => True).
Proof. unfold record_linked. keeps_auto. Qed.

#[local] Hint Resolve keeps_captureCatalogUIPolicy keeps_record_linked : keeps.

Lemma keeps_captureServiceCatalogVariable (v : JS.value) :
  keeps_with I (captureServiceCatalogVariable P v) (fun _ => True).
Proof. unfold captureServiceCatalogVariable. keeps_auto. Qed.

#[local] Hint Resolve keeps_captureServiceCatalogVariable : keeps.

Lemma keeps_captureServiceCatalogItem (v : JS.value) :
  keeps_with I (captureServiceCatalogItem P v) (fun _ => True).
Proof. unfold captureServiceCatalogItem. keeps_auto. Qed.

Lemma keeps_captureDatabaseView (v : JS.value) :
  keeps_with I (captureDatabaseView P v) (fun _ => True).
Proof. unfold captureDatabaseView. keeps_auto. Qed.

Lemma keeps_captureApplicationMenuAndModules (v : JS.value) :
  keeps_with I (captureApplicationMenuAndModules P v) (fun _ => True).
Proof. unfold captureApplicationMenuAndModules. keeps_auto. Qed.

Lemma keeps_captureScriptIncludeByName (v : JS.value) :
  keeps_with I (captureScriptIncludeByName P v) (fun _ => True).
Proof. unfold captureScriptIncludeByName. keeps_auto. Qed.

Lemma keeps_captureUserRole (v : JS.value) :
  keeps_with I (captureUserRole P v) (fun _ => True).
Proof. unfold captureUserRole. keeps_auto. Qed.

Lemma keeps_captureApplicationRecord (v : JS.value) :
  keeps_with I (captureApplicationRecord P v) (fun _ => True).
Proof. unfold captureApplicationRecord. keeps_auto. Qed.

Lemma keeps_captureSystemProperty (v : JS.value) :
  keeps_with I (captureSystemProperty P v) (fun _ => True).
Proof. unfold captureSystemProperty. keeps_auto. Qed.

#[local] Hint Resolve keeps_captureSystemProperty : keeps.

Lemma keeps_captureSystemPropertyCategoryWithAssociations (v : JS.value) :
  keeps_with I (captureSystemPropertyCategoryWithAssociations P v) (fun _ => True).
Proof. unfold captureSystemPropertyCategoryWithAssociations. keeps_auto. Qed.

Lemma keeps_captureEventRegistration (v : JS.value) :
  keeps_with I (captureEventRegistration P v) (fun _ => True).
Proof. unfold captureEventRegistration. keeps_auto. Qed.

Lemma keeps_captureDataRecordsFromTable (t q : JS.value) :
  keeps_with I (captureDataRecordsFromTable P t q) (fun _ => True).
Proof. unfold captureDataRecordsFromTable. keeps_auto. Qed.

Lemma keeps_captureDataRecord (gr : Argument) :
  keeps_with I (captureDataRecord gr) (fun _ => True).
Proof.
  unfold captureDataRecord. destruct gr as [| | |gr]; try apply keeps_throw.
  cbv zeta. destruct (JS.nil (JS.str (getTableName gr))) eqn:E;
    [apply keeps_throw|].
  apply keeps_recordObject. apply named_ok.
  simpl in E. now apply String.eqb_neq in E.
Qed.

Lemma keepsF_lift (c : M unit) (Q : unit -> Prop) :
  keeps_with I c Q -> keepsF I (lift c).
Proof.
  intros H e r e' Hrun HI. unfold lift in Hrun. inversion Hrun as [Hc].
  destruct (H e HI) as [H1 _]. now rewrite Hc in H1.
Qed.

Lemma keepsF_bindF {A} (c : M A) (k : A -> MF unit) (Q : A -> Prop) :
  keeps_with I c Q -> (forall a, Q a -> keepsF I (k a)) ->
  keepsF I (bindF (lift c) k).
Proof.
  intros Hc Hk e r e' Hrun HI. unfold bindF, lift in Hrun.
  destruct (Hc e HI) as [H1 H2].
  destruct (c e) as [[a|ex] e1]; simpl in *.
  - apply (Hk a (H2 a eq_refl) e1 r e' Hrun H1).
  - inversion Hrun; subst. exact H1.
Qed.

Lemma keepsF_while_nextF (rows : list GlideRecord) (body : GlideRecord -> MF unit) :
  Forall ok rows -> (forall r, ok r -> keepsF I (body r)) ->
  keepsF I (while_nextF rows body).
Proof.
  intros Hrows Hbody. induction Hrows as [|row rows Hr _ IH]; simpl.
  - apply (keepsF_lift _ (fun _ => True)). now apply keeps_ret.
  - intros e r e' Hrun HI. unfold bindF in Hrun.
    destruct (body row e) as [[[[]|ex] e1]|] eqn:Hb; [| |discriminate].
    + apply (IH e1 r e' Hrun). apply (Hbody row Hr e _ _ Hb HI).
    + inversion Hrun; subst. apply (Hbody row Hr e _ _ Hb HI).
Qed.

Lemma keepsF_captureArchivalRule (fuel : nat) (v : JS.value) :
  keepsF I (captureArchivalRule P fuel v).
Proof.
  revert v. induction fuel as [|fuel IH]; intros v; [intros e r e' H; discriminate|].
  cbn [captureArchivalRule]. destruct (JS.nil v).
  { apply (keepsF_lift _ (fun _ => True)). apply keeps_throw. }
  cbv zeta. eapply keepsF_bindF; [apply keeps_gr_get | intros o Ho].
  destruct o as [rul|]; [|apply (keepsF_lift _ (fun _ => True)); apply keeps_throw].
  eapply keepsF_bindF; [apply keeps_recordObject; now apply Ho | intros _ _].
  eapply keepsF_bindF; [apply keeps_gr_query | intros rels Hrels].
  apply keepsF_while_nextF; [exact Hrels | intros rel Hrel].
  eapply keepsF_bindF; [now apply keeps_recordObject | intros _ _].
  destruct (negb (element_nil rel "table_archive_rule"));
    [|apply (keepsF_lift _ (fun _ => True)); now apply keeps_ret].
  destruct (negb (element rel "table_archive_rule" =? JS.to_string v));
    [apply IH | apply (keepsF_lift _ (fun _ => True)); now apply keeps_ret].
Qed.

(** Every public function that captures keeps [I]. *)
Lemma keepsF_run (fuel : nat) (c : PublicCall) :
  is_capture c = true -> keepsF I (run P fuel c).
Proof.
  intros Hc. destruct c; try discriminate Hc; cbn [run];
    try (apply (keepsF_lift _ (fun _ => True));
         auto using keeps_captureTableWithRelatedObjects,
           keeps_captureServiceCatalogItem, keeps_captureDatabaseView,
           keeps_captureApplicationMenuAndModules, keeps_captureScriptIncludeByName,
           keeps_captureUserRole, keeps_captureApplicationRecord,
           keeps_captureSystemPropertyCategoryWithAssociations,
           keeps_captureSystemProperty, keeps_captureEventRegistration,
           keeps_captureDataRecordsFromTable, keeps_captureDataRecord,
           keeps_captureACLsForTable, keeps_captureACLsForTableAndField,
           keeps_captureUIPolicesForTable, keeps_captureDataPolicesForTable,
           keeps_captureTableNumber, keeps_captureListLayoutsForTable,
           keeps_captureFormLayoutsForTable,
           keeps_captureTableFieldAndAssociatedObjects,
           keeps_captureCatalogUIPolicy, keeps_captureServiceCatalogVariable).
  apply keepsF_captureArchivalRule.
Qed.

End Keeps.

(** ** The map only grows *)






Lemma names_tables_catalog : names_tables Examples.catalog_platform.
Proof.
  assert (Hrows : forall r, In r Examples.catalog_rows -> getTableName r <> "").
  { intros r Hin. unfold Examples.catalog_rows in Hin.
    destruct Hin as [<-|[<-|[<-|[]]]]; discriminate. }
  split.
  - intros tbl conds gr Hin.
    change (pf_query Examples.catalog_platform tbl conds)
      with (Store.select Examples.catalog_rows tbl conds) in Hin.
    unfold Store.select in Hin. apply filter_In in Hin as [Hin _].
    now apply Hrows.
  - intros gr field.
    change (pf_getRefRecord Examples.catalog_platform gr field)
      with (Store.deref Examples.catalog_rows (fun _ => "sys_ui_page") gr field).
    unfold Store.deref.
    destruct (find _ Examples.catalog_rows) as [r|] eqn:E; [|discriminate].
    apply find_some in E as [Hin _]. now apply Hrows.
Qed.

(** ** The counter after any script *)

Lemma writeUpdateSet_builder_after (P : Platform) (updateSetName : JS.value)
    (e : Env) :
  this (snd (writeUpdateSet P updateSetName e)) = this e
  \/ this (snd (writeUpdateSet P updateSetName e)) = initialize.
Proof.
  destruct (fst (writeUpdateSet P updateSetName e)) as [[]|ex] eqn:Hfst.
  - right. rewrite writeUpdateSet_completion in Hfst.
    destruct (JS.nil updateSetName) eqn:Hname; [discriminate|].
    destruct (JS.nil (_getCurrentScopeName P)) eqn:Hscope; [discriminate|].
    destruct (hd_error (pf_query P TABLES.SYS_SCOPE _)) as [scopeGR|] eqn:HscopeGR;
      [|discriminate].
    destruct (hd_error (pf_query P TABLES.UPDATE_SET _)) as [curGR|] eqn:HcurGR;
      [|discriminate].
    assert (Hreach : reaches_write_loop P updateSetName scopeGR curGR e)
      by now repeat split.
    destruct (writeUpdateSet_reaches_try _ _ _ _ _ Hreach) as (usGR & e0 & Hrun & _).
    destruct (write_block_run P usGR curGR (currentUpdateSet e) e0)
      as (final & msg & us & Hblock & _).
    now rewrite Hrun, Hblock.
  - left. now apply (writeUpdateSet_throws_before_switching P updateSetName e ex).
Qed.

Lemma consistent_run (P : Platform) (fuel : nat) (c : PublicCall) (e e' : Env)
    (r : Completion unit) :
  names_tables P -> run P fuel c e = Some (r, e') ->
  consistent (this e) -> consistent (this e').
Proof.
  intros [Hq Hr] Hrun HI.
  destruct (is_capture c) eqn:Hc.
  - apply (keepsF_run P consistent (fun gr => getTableName gr <> ""))
      with (fuel := fuel) (c := c) (e := e) (r := r); auto.
    intros gr e0 Hgr. apply consistent_recorded. now apply truthy_not_empty.
  - destruct c; try discriminate Hc. cbn [run] in Hrun. unfold lift in Hrun.
    inversion Hrun as [Hw].
    destruct (writeUpdateSet_builder_after P updateSetName e) as [H|H];
      rewrite Hw in H; simpl in H; rewrite H;
      [exact HI | exact consistent_initialize].
Qed.

(** X3: on a platform whose records all name a table, after any script of
    public calls on a new builder, failed calls included, no sys_id is twice
    in the map and [getObjectCount] is the number of entries. *)
Theorem script_keeps_counter_exact (P : Platform) (fuel : nat)
    (calls : list PublicCall) (e e' : Env) :
  names_tables P ->
  this e = initialize ->
  run_calls P fuel calls e = Some e' ->
  NoDup (map fst (_capturedObjectMap (this e')))
  /\ getObjectCount (this e') = length (_capturedObjectMap (this e')).
Proof.
  intros HP Hinit Hrun.
  assert (Hc : consistent (this e')).
  { assert (H0 : consistent (this e)) by (rewrite Hinit; exact consistent_initialize).
    clear Hinit. revert e H0 Hrun.
    induction calls as [|c calls IH]; intros e H0 Hrun; simpl in Hrun.
    - now inversion Hrun; subst.
    - destruct (run P fuel c e) as [[r e1]|] eqn:Hc; [|discriminate].
      apply (IH e1); [|exact Hrun]. now apply (consistent_run P fuel c e e1 r). }
  destruct Hc as (Hnd & Hcount & _). now split.
Qed.

(** ** Lookup after recording *)





(** ** UI views *)


(** ** What is asked for does not exist *)

Lemma bind_throw_eq {A B} (c : M A) (k : A -> M B) (ex : string) (e e' : Env) :
  c e = (Throw ex, e') -> bind c k e = (Throw ex, e').
Proof. intros H. unfold bind. now rewrite H. Qed.

Lemma captureUniqueGRObject_no_row (P : Platform) (tbl : string)
    (conds : list Condition) (who : string) (e : Env) :
  pf_query P tbl conds = [] ->
  _captureUniqueGRObject P (mkQuery tbl conds) who e =
  (Throw (who ++ ": No " ++ tbl ++ " found for query '" ++ getEncodedQuery conds ++ "'"),
   after_query tbl conds e).
Proof.
  intros Hq. unfold _captureUniqueGRObject, mkQuery. cbn [q_table q_conds].
  erewrite bind_eq by apply gr_query_run. now rewrite Hq.
Qed.

Ltac first_lookup_fails Hq :=
  first
    [ erewrite bind_eq by apply gr_get_by_run; rewrite Hq; eexists; reflexivity
    | erewrite bind_eq by apply gr_get_run; rewrite Hq; eexists; reflexivity
    | erewrite bind_eq by apply gr_query_run; rewrite Hq; eexists; reflexivity
    | erewrite bind_throw_eq by (apply captureUniqueGRObject_no_row; exact Hq);
      eexists; reflexivity ].

(** X6: every public function that begins by checking that its subject exists
    throws when that lookup finds no row; the lookup is the only call made
    to the platform and the builder is as it was. *)
Theorem missing_subject_throws (P : Platform) (fuel : nat) (c : PublicCall)
    (tbl : string) (conds : list Condition) (e : Env) :
  required_nil c = false ->
  existence_check P c = Some (tbl, conds) ->
  pf_query P tbl conds = [] ->
  exists ex, run P (S fuel) c e = Some (Throw ex, after_query tbl conds e).
Proof.
  intros Hnil Hcheck Hq.
  destruct c; cbn [existence_check] in Hcheck; try discriminate Hcheck;
    inversion Hcheck; subst tbl conds; clear Hcheck;
    cbn [required_nil] in Hnil;
    try (apply orb_false_elim in Hnil as [Hnil Hnil']);
    cbn [run]; unfold lift;
    unfold captureTableWithRelatedObjects, captureServiceCatalogItem,
      captureDatabaseView, captureApplicationMenuAndModules,
      captureScriptIncludeByName, captureUserRole, captureApplicationRecord,
      captureSystemPropertyCategoryWithAssociations, captureSystemProperty,
      captureEventRegistration, captureACLsForTable, captureACLsForTableAndField,
      captureUIPolicesForTable, captureDataPolicesForTable, captureTableNumber,
      captureTableFieldAndAssociatedObjects, captureCatalogUIPolicy,
      captureServiceCatalogVariable;
    try rewrite Hnil; try rewrite Hnil'; cbv zeta;
    try (match goal with
         | |- exists ex, Some (?c ?env) = Some (Throw ex, ?env') =>
             cut (exists ex, c env = (Throw ex, env'));
             [intros [ex Hex]; exists ex; now rewrite Hex|]
         end; first_lookup_fails Hq).
  cbn [captureArchivalRule]. rewrite Hnil. cbv zeta.
  unfold bindF at 1. unfold lift at 1. rewrite gr_get_run, Hq. cbn [hd_error].
  eexists. reflexivity.
Qed.

(** X8: [captureServiceCatalogItem] refuses a catalog item of a subclass: when
    the item is found and its class is not sc_cat_item the call throws after
    that one lookup and records nothing. *)
Theorem captureServiceCatalogItem_refuses_subclasses (P : Platform)
    (catSysId : JS.value) (item : GlideRecord) (e : Env) :
  JS.nil catSysId = false ->
  hd_error (pf_query P TABLES.CATALOG_ITEM
              [addQuery "sys_id" (JS.to_string catSysId)]) = Some item ->
  element item "sys_class_name" <> TABLES.CATALOG_ITEM ->
  captureServiceCatalogItem P catSysId e =
  (Throw ("xSNUpdateSetBuilder.captureServiceCatalogItem: Catalog Item for sys_id '"
          ++ JS.to_string catSysId ++ "' is a '"
          ++ pf_getDisplayValue P item "sys_class_name"
          ++ "'; Catalog Item subclasses are not supported by this utility"),
   after_query TABLES.CATALOG_ITEM [addQuery "sys_id" (JS.to_string catSysId)] e).
Proof.
  intros Hnil Hget Hclass. unfold captureServiceCatalogItem. rewrite Hnil.
  cbv zeta. erewrite bind_eq by apply gr_get_run. rewrite Hget.
  apply String.eqb_neq in Hclass. now rewrite Hclass.
Qed.

(** ** Archive rules without cycles *)

Lemma while_nextF_returns {A} (rows : list A) (body : A -> MF unit) (e : Env) :
  (forall r e0, In r rows -> exists c e1, body r e0 = Some (c, e1)) ->
  exists c e', while_nextF rows body e = Some (c, e').
Proof.
  revert e. induction rows as [|r rows IH]; intros e Hbody.
  - now exists (Normal tt), e.
  - cbn [while_nextF]. unfold bindF.
    destruct (Hbody r e (or_introl eq_refl)) as ([[]|ex] & e1 & Hr); rewrite Hr.
    + apply IH. intros r0 e0 Hin. apply Hbody. now right.
    + now exists (Throw ex), e1.
Qed.

(** X9: [captureArchivalRule] returns when the rules reachable from its
    argument, references of a rule to itself left out, are finitely deep:
    depth [n] needs no more than [n] nested calls. *)
Theorem captureArchivalRule_returns_without_cycles (P : Platform) (n : nat)
    (id : string) (fuel : nat) (e : Env) :
  expands_within P n id = true ->
  n <= fuel ->
  exists c e', captureArchivalRule P fuel (JS.str id) e = Some (c, e').
Proof.
  revert id fuel e. induction n as [|n IH]; intros id fuel e Hdepth Hfuel;
    [discriminate|].
  destruct fuel as [|fuel]; [lia|].
  cbn [expands_within] in Hdepth. cbn [captureArchivalRule].
  destruct (JS.nil (JS.str id)); [now eexists _, _|].
  cbv zeta. cbn [JS.to_string].
  unfold bindF at 1. unfold lift at 1. rewrite gr_get_run.
  destruct (hd_error (pf_query P TABLES.ARCHIVE_RULE [addQuery "sys_id" id]))
    as [rul|]; [|now eexists _, _].
  rewrite bindF_recordObject.
  unfold bindF at 1. unfold lift at 1. rewrite gr_query_run.
  apply while_nextF_returns. intros rel e0 Hin.
  rewrite bindF_recordObject.
  rewrite forallb_forall in Hdepth. specialize (Hdepth rel Hin). cbv zeta in Hdepth.
  unfold element_nil.
  destruct (element rel "table_archive_rule" =? "") eqn:Enil;
    [now eexists _, _|].
  destruct (element rel "table_archive_rule" =? id) eqn:Eself;
    [now eexists _, _|].
  cbn [negb orb] in Hdepth |- *. apply IH; [exact Hdepth | lia].
Qed.

(** ** Capture functions that fail only when their subject is missing *)

Lemma completes_ret {A} (a : A) (Q : A -> Prop) : Q a -> completes (ret a) Q.
Proof. intros HQ e. now exists a. Qed.

Lemma completes_bind {A B} (c : M A) (k : A -> M B) (Q1 : A -> Prop)
    (Q : B -> Prop) :
  completes c Q1 -> (forall a, Q1 a -> completes (k a) Q) -> completes (bind c k) Q.
Proof.
  intros Hc Hk e. destruct (Hc e) as (a & Ha & HQ).
  rewrite (bind_normal _ _ _ _ Ha). apply (Hk a HQ).
Qed.

Lemma completes_seq {B} (c : M unit) (k : M B) (Q : B -> Prop) :
  completes c (fun _ => True) -> completes k Q -> completes (c ;; k) Q.
Proof.
  intros Hc Hk. apply (completes_bind c _ (fun _ => True) Q Hc). now intros _ _.
Qed.

Lemma completes_log (msg : string) : completes (gs_log msg) (fun _ => True).
Proof. intros e. now exists tt. Qed.

Lemma completes_recordObject (gr : option GlideRecord) :
  completes (_recordObject gr) (fun _ => True).
Proof. intros e. exists tt. split; [apply recordObject_normal | trivial]. Qed.

Lemma completes_gr_query (P : Platform) (tbl : string) (conds : list Condition) :
  completes (gr_query P tbl conds) (fun _ => True).
Proof. intros e. now eexists. Qed.

Lemma completes_getRefRecord (P : Platform) (gr : GlideRecord) (field : string) :
  completes (getRefRecord P gr field) (fun _ => True).
Proof. intros e. now eexists. Qed.

Lemma completes_while_next {A} (rows : list A) (body : A -> M unit) :
  (forall r, completes (body r) (fun _ => True)) ->
  completes (while_next rows body) (fun _ => True).
Proof.
  intros Hbody. induction rows as [|r rows IH]; simpl.
  - now apply completes_ret.
  - apply completes_seq; [apply Hbody | exact IH].
Qed.

Lemma completes_captureObjectsFromGRQuery (P : Platform) (tbl : string)
    (conds : list Condition) :
  completes (_captureObjectsFromGRQuery P (mkQuery tbl conds)) (fun _ => True).
Proof.
  intros e. exists tt. split; [|trivial].
  apply (records_captureObjectsFromGRQuery P tbl conds e).
Qed.

Lemma completes_record_linked (P : Platform) (varGR : GlideRecord)
    (field : string) (warning : option string) :
  completes (record_linked P varGR field warning) (fun _ => True).
Proof.
  intros e. exists tt. split; [|trivial].
  apply (records_record_linked P varGR field warning e).
Qed.

Ltac completes_step :=
  match goal with
  | |- completes (ret _) _ => now apply completes_ret
  | |- completes (gs_log _) _ => apply completes_log
  | |- completes (_recordObject _) _ => apply completes_recordObject
  | |- completes (_captureObjectsFromGRQuery _ (mkQuery _ _)) _ =>
      apply completes_captureObjectsFromGRQuery
  | |- completes (record_linked _ _ _ _) _ => apply completes_record_linked
  | |- completes (bind (gr_query _ _ _) _) _ =>
      eapply completes_bind; [apply completes_gr_query | intros ? _]
  | |- completes (bind (getRefRecord _ _ _) _) _ =>
      eapply completes_bind; [apply completes_getRefRecord | intros ? _]
  | |- completes (bind _ (fun _ => _)) _ => apply completes_seq
  | |- completes (while_next _ _) _ => apply completes_while_next; intros ?
  | |- completes (if ?b then _ else _) _ => destruct b
  | |- completes (let _ := _ in _) _ => cbv zeta
  end.

Lemma run_after_check {A} (c : M A) (k : A -> M unit) (a : A) (e e1 : Env) :
  c e = (Normal a, e1) -> completes (k a) (fun _ => True) ->
  exists e', bind c k e = (Normal tt, e').
Proof.
  intros Hc Hk. rewrite (bind_eq _ _ _ _ _ Hc).
  destruct (Hk e1) as ([] & Ha & _).
  exists (snd (k a e1)). rewrite <- Ha. now destruct (k a e1).
Qed.

(** X7: seven capture functions fail in one way only once their parameter is
    not nil: when the lookup of their subject finds a row they complete
    normally, whatever else the store holds. *)
Theorem simple_capture_completes_when_subject_found (P : Platform) (fuel : nat)
    (c : PublicCall) (tbl : string) (conds : list Condition) (e : Env) :
  simple_capture c = true ->
  required_nil c = false ->
  existence_check P c = Some (tbl, conds) ->
  pf_query P tbl conds <> [] ->
  exists e', run P fuel c e = Some (Normal tt, e').
Proof.
  intros Hsimple Hnil Hcheck Hfound.
  destruct c; try discriminate Hsimple;
    cbn [existence_check] in Hcheck; inversion Hcheck; subst tbl conds; clear Hcheck;
    cbn [required_nil] in Hnil; cbn [run]; unfold lift;
    match goal with
    | |- exists e', Some (?m ?env) = Some (Normal tt, e') =>
        cut (exists e', m env = (Normal tt, e'));
        [intros [e' He']; exists e'; now rewrite He'|]
    end;
    destruct (pf_query P _ _) as [|row rows] eqn:Hq; try contradiction;
    unfold captureTableNumber, captureACLsForTable, captureUIPolicesForTable,
      captureDataPolicesForTable, captureApplicationMenuAndModules,
      captureCatalogUIPolicy, captureServiceCatalogVariable;
    rewrite Hnil; cbv zeta.
  all: (eapply run_after_check;
        [first [apply gr_get_run | apply gr_get_by_run | apply gr_query_run]|];
        rewrite Hq; cbn [hd_error]; repeat completes_step).
Qed.

Lemma simple_capture_completes_when_subject_found_witness :
  exists e',
    run Examples.catalog_platform 0 (call_captureServiceCatalogVariable (JS.str "v6"))
      (fresh "")
    = Some (Normal tt, e').
Proof.
  apply (simple_capture_completes_when_subject_found Examples.catalog_platform 0
           (call_captureServiceCatalogVariable (JS.str "v6"))
           "item_option_new" [addQuery "sys_id" "v6"] (fresh ""));
    try reflexivity.
  vm_compute. discriminate.
Defined.

(** ** Form layouts and data records *)




Lemma trace_after_log (c : M unit) (msg : string) (e : Env) :
  fst (c e) = Normal tt ->
  trace (snd ((c ;; gs_log msg) e)) = EvLog msg :: trace (snd (c e)).
Proof.
  intros H. now rewrite (bind_normal _ _ _ _ H).
Qed.

(** X11: for a table name that is not nil [captureDataRecordsFromTable] never
    throws; it records the rows of the table, filtered by the encoded query
    when one is given, and the last message it logs gives the number of rows
    of the query, whether or not they were already captured. *)
Theorem captureDataRecordsFromTable_records_the_rows (P : Platform)
    (tblName queryCondition : JS.value) (e : Env) :
  JS.nil tblName = false ->
  let rows := pf_query P (JS.to_string tblName) (data_conditions queryCondition) in
  let r := captureDataRecordsFromTable P tblName queryCondition e in
  fst r = Normal tt
  /\ this (snd r) = recorded_all rows (this e)
  /\ hd_error (logged (trace (snd r))) =
     Some ("xSNUpdateSetBuilder.captureDataRecordsFromTable: captured "
           ++ JS.of_nat (length rows) ++ " records").
Proof.
  intros Hnil rows r. subst r rows.
  unfold captureDataRecordsFromTable. rewrite Hnil. cbv zeta.
  replace (if negb (JS.nil queryCondition)
           then [addEncodedQuery (JS.to_string queryCondition)] else [])
    with (data_conditions queryCondition)
    by (unfold data_conditions; now destruct (JS.nil queryCondition)).
  set (conds := data_conditions queryCondition).
  set (tbl := JS.to_string tblName).
  erewrite bind_eq by apply gr_query_run.
  destruct (records_captureObjectsFromGRQuery P tbl conds (after_query tbl conds e))
    as [Hn Ht].
  split; [|split].
  - now rewrite (bind_normal _ _ _ _ Hn).
  - rewrite (bind_normal _ _ _ _ Hn). exact Ht.
  - rewrite (trace_after_log _ _ _ Hn). reflexivity.
Qed.

(** ** Report views *)





(** ** More on [writeUpdateSet] *)

Lemma find_or_create_update_set_exact (P : Platform) (scopeId name : string)
    (e : Env) :
  exists e0,
    find_or_create_update_set P scopeId name e
    = (Normal (target_update_set P scopeId name), e0)
    /\ this e0 = this e
    /\ currentUpdateSet e0 = currentUpdateSet e
    /\ saved_records (trace e0) = saved_records (trace e)
    /\ saved_into (trace e0) = saved_into (trace e)
    /\ inserted (trace e0) =
       (match pf_query P TABLES.UPDATE_SET
                [addQuery "application" scopeId; addQuery "name" name] with
        | [] => [target_update_set P scopeId name]
        | _ :: _ => []
        end ++ inserted (trace e))%list.
Proof.
  unfold find_or_create_update_set, target_update_set.
  erewrite bind_eq by apply gr_query_run.
  destruct (pf_query P TABLES.UPDATE_SET _) as [|usGR rest].
  - unfold gr_insert.
    erewrite bind_eq by (erewrite bind_eq by reflexivity; reflexivity).
    erewrite bind_eq by apply gs_log_run.
    eexists. split; [reflexivity|]. now repeat split.
  - erewrite bind_eq by apply gs_log_run.
    eexists. split; [reflexivity|]. now repeat split.
Qed.

Lemma writeUpdateSet_reaches_try_exact (P : Platform) (updateSetName : JS.value)
    (scopeGR curGR : GlideRecord) (e : Env) :
  reaches_write_loop P updateSetName scopeGR curGR e ->
  exists e0,
    writeUpdateSet P updateSetName e =
    try_catch_finally
      (write_try P (target_update_set P (JS.to_string (sys_id scopeGR))
                      (JS.to_string updateSetName)))
      write_catch (write_finally P (currentUpdateSet e) curGR) e0
    /\ this e0 = this e
    /\ currentUpdateSet e0 = currentUpdateSet e
    /\ saved_records (trace e0) = saved_records (trace e)
    /\ saved_into (trace e0) = saved_into (trace e)
    /\ inserted (trace e0) =
       (match pf_query P TABLES.UPDATE_SET
                [addQuery "application" (JS.to_string (sys_id scopeGR));
                 addQuery "name" (JS.to_string updateSetName)] with
        | [] => [target_update_set P (JS.to_string (sys_id scopeGR))
                   (JS.to_string updateSetName)]
        | _ :: _ => []
        end ++ inserted (trace e))%list.
Proof.
  intros (Hname & Hscope & HscopeGR & HcurGR).
  unfold writeUpdateSet. rewrite Hname.
  assert (Hsc : _getCurrentScopeGR P e =
                (Normal scopeGR,
                 after_query TABLES.SYS_SCOPE
                   [addQuery "name" (JS.to_string (_getCurrentScopeName P))] e)).
  { unfold _getCurrentScopeGR. rewrite Hscope.
    erewrite bind_eq by apply gr_get_by_run. now rewrite HscopeGR. }
  erewrite bind_eq by exact Hsc.
  erewrite bind_eq by apply gs_log_run.
  erewrite bind_eq by reflexivity.
  erewrite bind_eq by apply gr_get_run.
  cbn [this currentUpdateSet trace after_query]. rewrite HcurGR.
  erewrite bind_eq by apply gs_log_run.
  match goal with
  | |- context [bind (find_or_create_update_set P ?s ?n) _ ?env] =>
      destruct (find_or_create_update_set_exact P s n env)
        as (e0 & Hrun & Hthis & Hcur & Hsaved & Hinto & Hins)
  end.
  erewrite bind_eq by exact Hrun.
  exists e0. cbn [this currentUpdateSet trace] in *. now repeat split.
Qed.

(** The environment the [try]/[catch]/[finally] statement leaves. *)
Lemma write_block_exact (P : Platform) (usGR curGR : GlideRecord) (cur : string)
    (e0 : Env) :
  let target := JS.to_string (sys_id usGR) in
  let us := if pf_setUpdateSet P target then target else currentUpdateSet e0 in
  let final := if pf_setUpdateSet P cur then cur else us in
  try_catch_finally (write_try P usGR) write_catch (write_finally P cur curGR) e0 =
  (Normal tt,
   {| this := initialize;
      currentUpdateSet := final;
      trace :=
        EvLog (if negb (final =? cur)
               then "writeUpdateSet: WARNING: Failed to move back to originally selected update set.  MAKE SURE TO DO SO MANUALLY"
               else "writeUpdateSet: Moved back to original update set '"
                    ++ element curGR "name" ++ "' successfully")
        :: EvSetUpdateSet cur
        :: EvLog (match first_failure P (_capturedObjectMap (this e0)) with
                  | None => "writeUpdateSet: Finished writing captured objects to update set"
                  | Some ex => "writeUpdateSet: ERROR while writing update set!: " ++ ex
                  end)
        :: loop_trace P us (_capturedObjectMap (this e0))
             (EvLog ("writeUpdateSet: Writing captured objects to update set" ++ newline)
              :: EvSetUpdateSet target
              :: EvLog ("writeUpdateSet: Moving to Update Set '"
                        ++ element usGR "name" ++ "'")
              :: trace e0) |}).
Proof.
  intros target us final. unfold try_catch_finally. rewrite write_try_run.
  fold target. fold us.
  destruct (first_failure P (_capturedObjectMap (this e0))) as [ex|].
  - unfold write_catch. rewrite gs_log_run, write_finally_run. reflexivity.
  - rewrite write_finally_run. reflexivity.
Qed.

Lemma loop_trace_saved_into (P : Platform) (us : string) (entries : ObjectMap)
    (t : list Event) :
  saved_into (loop_trace P us entries t) =
  (repeat us (length (written_before_failure P entries)) ++ saved_into t)%list.
Proof.
  revert t. induction entries as [|entry rest IH]; intros t; simpl; [reflexivity|].
  destruct (entry_outcome P entry) as [gr| |ex]; simpl.
  - rewrite IH. simpl.
    change (us :: saved_into t) with ([us] ++ saved_into t)%list.
    rewrite app_assoc. f_equal.
    change [us] with (repeat us 1). rewrite <- repeat_app.
    now rewrite Nat.add_1_r.
  - now rewrite IH.
  - reflexivity.
Qed.

Lemma loop_trace_inserted (P : Platform) (us : string) (entries : ObjectMap)
    (t : list Event) :
  inserted (loop_trace P us entries t) = inserted t.
Proof.
  revert t. induction entries as [|entry rest IH]; intros t; simpl; [reflexivity|].
  destruct (entry_outcome P entry) as [gr| |ex]; simpl; rewrite ?IH; reflexivity.
Qed.

(** X13: [writeUpdateSet] creates the update set only when the query by scope
    and name finds none, and every record it writes goes to one update set:
    the target when the platform honours the switch to it, and otherwise the
    update set that was current at entry. *)
Theorem writeUpdateSet_writes_into_one_update_set (P : Platform)
    (updateSetName : JS.value) (scopeGR curGR : GlideRecord) (e : Env) :
  reaches_write_loop P updateSetName scopeGR curGR e ->
  let scopeId := JS.to_string (sys_id scopeGR) in
  let name := JS.to_string updateSetName in
  let usGR := target_update_set P scopeId name in
  let target := JS.to_string (sys_id usGR) in
  let e' := snd (writeUpdateSet P updateSetName e) in
  inserted (trace e') =
    (match pf_query P TABLES.UPDATE_SET
             [addQuery "application" scopeId; addQuery "name" name] with
     | [] => [usGR]
     | _ :: _ => []
     end ++ inserted (trace e))%list
  /\ saved_into (trace e') =
     (repeat (if pf_setUpdateSet P target then target else currentUpdateSet e)
        (length (written_before_failure P (_capturedObjectMap (this e))))
      ++ saved_into (trace e))%list.
Proof.
  intros Hreach scopeId name usGR target e'. subst e'.
  destruct (writeUpdateSet_reaches_try_exact _ _ _ _ _ Hreach)
    as (e0 & Hrun & Hthis & Hcur & _ & Hinto & Hins).
  rewrite Hrun, write_block_exact. cbn [snd trace inserted saved_into].
  rewrite loop_trace_inserted, loop_trace_saved_into.
  cbn [inserted saved_into]. rewrite Hthis, Hcur, Hinto, Hins.
  now split.
Qed.

(** X14: on return from a [writeUpdateSet] that reached its write loop the
    session is on the original update set when the platform honours the
    switch back, and otherwise where the switch to the target left it; the
    last message logged is the warning exactly when the session is not on
    the original update set. *)
Theorem writeUpdateSet_warns_when_not_switched_back (P : Platform)
    (updateSetName : JS.value) (scopeGR curGR : GlideRecord) (e : Env) :
  reaches_write_loop P updateSetName scopeGR curGR e ->
  let cur := currentUpdateSet e in
  let target := JS.to_string
                  (sys_id (target_update_set P (JS.to_string (sys_id scopeGR))
                             (JS.to_string updateSetName))) in
  let e' := snd (writeUpdateSet P updateSetName e) in
  currentUpdateSet e' =
    (if pf_setUpdateSet P cur then cur
     else if pf_setUpdateSet P target then target else cur)
  /\ hd_error (logged (trace e')) =
     Some (if currentUpdateSet e' =? cur
           then "writeUpdateSet: Moved back to original update set '"
                ++ element curGR "name" ++ "' successfully"
           else "writeUpdateSet: WARNING: Failed to move back to originally selected update set.  MAKE SURE TO DO SO MANUALLY").
Proof.
  intros Hreach cur target e'. subst e'.
  destruct (writeUpdateSet_reaches_try_exact _ _ _ _ _ Hreach)
    as (e0 & Hrun & _ & Hcur & _).
  rewrite Hrun, write_block_exact. cbn [snd trace currentUpdateSet logged hd_error].
  rewrite Hcur. fold cur target. split; [reflexivity|].
  now destruct (_ =? cur).
Qed.

Lemma writeUpdateSet_empty_map_saves_nothing (P : Platform)
    (updateSetName : JS.value) (e : Env) :
  _capturedObjectMap (this e) = [] ->
  saved_records (trace (snd (writeUpdateSet P updateSetName e)))
  = saved_records (trace e).
Proof.
  intros Hempty.
  destruct (fst (writeUpdateSet P updateSetName e)) as [[]|ex] eqn:Hfst.
  - rewrite writeUpdateSet_completion in Hfst.
    destruct (JS.nil updateSetName) eqn:Hname; [discriminate|].
    destruct (JS.nil (_getCurrentScopeName P)) eqn:Hscope; [discriminate|].
    destruct (hd_error (pf_query P TABLES.SYS_SCOPE _)) as [scopeGR|] eqn:HscopeGR;
      [|discriminate].
    destruct (hd_error (pf_query P TABLES.UPDATE_SET _)) as [curGR|] eqn:HcurGR;
      [|discriminate].
    assert (Hreach : reaches_write_loop P updateSetName scopeGR curGR e)
      by now repeat split.
    destruct (writeUpdateSet_reaches_try_exact _ _ _ _ _ Hreach)
      as (e0 & Hrun & Hthis & _ & Hsaved & _).
    rewrite Hrun, write_block_exact. cbn [snd trace saved_records].
    rewrite loop_trace_saved. cbn [saved_records].
    now rewrite Hthis, Hempty, Hsaved.
  - now apply (writeUpdateSet_throws_before_switching P updateSetName e ex).
Qed.

(** X15: a [writeUpdateSet] that reached its write loop leaves nothing to
    write: a second [writeUpdateSet], under any name, writes no record. *)
Theorem writeUpdateSet_twice_writes_once (P : Platform)
    (first second : JS.value) (scopeGR curGR : GlideRecord) (e : Env) :
  reaches_write_loop P first scopeGR curGR e ->
  let e1 := snd (writeUpdateSet P first e) in
  saved_records (trace (snd (writeUpdateSet P second e1)))
  = saved_records (trace e1).
Proof.
  intros Hreach e1. apply writeUpdateSet_empty_map_saves_nothing. subst e1.
  destruct (writeUpdateSet_reaches_try_exact _ _ _ _ _ Hreach) as (e0 & Hrun & _).
  now rewrite Hrun, write_block_exact.
Qed.

(** * Properties of the logger *)

Lemma logger_log_run (s : Logger.Severity) (message : JS.value)
    (cur : Logger.Level) (lg : Logger.t) :
  Logger.currentLevel lg = Some cur ->
  Logger.log s message lg =
  (Normal tt,
   if Logger.passes cur (s, message) then
     {| Logger.stmtQueue :=
          Logger.stmtQueue lg ++ [Logger.statement (s, message)];
        Logger.currentLevel := Some cur;
        Logger._separatorChar := Logger._separatorChar lg |}
   else lg).
Proof.
  intros Hcur. unfold Logger.passes, Logger.statement. cbn [fst snd].
  assert (H : Logger._doLog message (Logger.level_of s) lg =
              (Normal tt,
               if Z.leb (Logger.value cur) (Logger.value (Logger.level_of s)) then
                 {| Logger.stmtQueue :=
                      Logger.stmtQueue lg
                      ++ [Logger.label (Logger.level_of s) ++ ": "
                          ++ JS.to_string message];
                    Logger.currentLevel := Some cur;
                    Logger._separatorChar := Logger._separatorChar lg |}
               else lg)).
  { unfold Logger._doLog. rewrite Hcur. rewrite Z.gtb_ltb, Z.ltb_antisym.
    now destruct (Z.leb (Logger.value cur) (Logger.value (Logger.level_of s))). }
  destruct s; exact H.
Qed.

(** X16: each [is...LevelEnabled] guard answers as the logging method of its
    level behaves: once a level is set, the method queues its statement
    exactly when the guard returns true, and otherwise leaves the queue
    alone. *)
Theorem logger_guard_matches_filter (s : Logger.Severity) (message : JS.value)
    (cur : Logger.Level) (lg : Logger.t) :
  Logger.currentLevel lg = Some cur ->
  exists enabled,
    Logger.is_enabled s lg = (Normal enabled, lg)
    /\ fst (Logger.log s message lg) = Normal tt
    /\ Logger.stmtQueue (snd (Logger.log s message lg)) =
       (if enabled
        then Logger.stmtQueue lg ++ [Logger.statement (s, message)]
        else Logger.stmtQueue lg)%list.
Proof.
  intros Hcur.
  exists (Z.leb (Logger.value cur) (Logger.value (Logger.level_of s))).
  split.
  - destruct s; unfold Logger.is_enabled, Logger.isDebugLevelEnabled,
      Logger.isInfoLevelEnabled, Logger.isWarnLevelEnabled,
      Logger.isErrorLevelEnabled, Logger.isFatalLevelEnabled, Logger.level_enabled;
      now rewrite Hcur.
  - rewrite (logger_log_run s message cur lg Hcur). unfold Logger.passes.
    cbn [fst snd].
    now destruct (Z.leb (Logger.value cur) (Logger.value (Logger.level_of s))).
Qed.

Lemma logger_log_all_run (entries : list (Logger.Severity * JS.value))
    (cur : Logger.Level) (lg : Logger.t) :
  Logger.currentLevel lg = Some cur ->
  Logger.log_all entries lg =
  {| Logger.stmtQueue :=
       Logger.stmtQueue lg
       ++ map Logger.statement (filter (Logger.passes cur) entries);
     Logger.currentLevel := Some cur;
     Logger._separatorChar := Logger._separatorChar lg |}.
Proof.
  revert lg. induction entries as [|[s message] rest IH]; intros lg Hcur.
  - simpl. rewrite app_nil_r. destruct lg; simpl in *. now subst.
  - cbn [Logger.log_all]. rewrite (logger_log_run s message cur lg Hcur).
    cbn [snd filter].
    destruct (Logger.passes cur (s, message)).
    + rewrite IH by reflexivity. cbn [Logger.stmtQueue Logger._separatorChar map].
      now rewrite <- app_assoc.
    + now rewrite IH.
Qed.

(** X17: [flush] returns the statements that passed the level filter since the
    last flush, in the order they were logged, joined by the separator, and
    empties the queue: flushing again at once returns the empty string. *)
Theorem logger_flush_returns_what_passed
    (entries : list (Logger.Severity * JS.value)) (cur : Logger.Level)
    (lg : Logger.t) :
  Logger.currentLevel lg = Some cur ->
  let flushed := Logger.flush (Logger.log_all entries lg) in
  fst flushed =
    Normal (String.concat (Logger._separatorChar lg)
              (Logger.stmtQueue lg
               ++ map Logger.statement (filter (Logger.passes cur) entries)))
  /\ Logger.stmtQueue (snd flushed) = []
  /\ Logger.currentLevel (snd flushed) = Some cur
  /\ fst (Logger.flush (snd flushed)) = Normal "".
Proof.
  intros Hcur flushed. subst flushed.
  rewrite (logger_log_all_run entries cur lg Hcur). now repeat split.
Qed.

Lemma logger_find_level (v : Z) :
  match find (fun lvl => Z.eqb v (Logger.value lvl)) Logger.LOG_LEVEL with
  | Some lvl => Logger.value lvl = v /\ In lvl Logger.LOG_LEVEL
  | None => forall lvl, In lvl Logger.LOG_LEVEL -> Logger.value lvl <> v
  end.
Proof.
  destruct (find _ Logger.LOG_LEVEL) as [lvl|] eqn:E.
  - apply find_some in E as [Hin Hv]. apply Z.eqb_eq in Hv. now split.
  - intros lvl Hin Hv. apply (find_none _ _ E) in Hin.
    apply Z.eqb_neq in Hin. congruence.
Qed.

Lemma logger_setLogLevel_run (v : Z) (lg : Logger.t) :
  (exists lvl,
     (In v [10000; 20000; 30000; 40000; 50000]%Z /\ Logger.value lvl = v)
     /\ Logger.setLogLevel (Some v) lg =
        (Normal tt, {| Logger.stmtQueue := Logger.stmtQueue lg;
                       Logger.currentLevel := Some lvl;
                       Logger._separatorChar := Logger._separatorChar lg |}))
  \/ (~ In v [10000; 20000; 30000; 40000; 50000]%Z
      /\ exists ex,
           Logger.setLogLevel (Some v) lg =
           (Throw ex, {| Logger.stmtQueue := Logger.stmtQueue lg;
                         Logger.currentLevel := None;
                         Logger._separatorChar := Logger._separatorChar lg |})).
Proof.
  unfold Logger.setLogLevel. cbv zeta.
  pose proof (logger_find_level v) as Hfind.
  destruct (find (fun lvl => Z.eqb v (Logger.value lvl)) Logger.LOG_LEVEL)
    as [lvl|].
  - left. exists lvl. destruct Hfind as [Hv Hin]. split; [|reflexivity].
    split; [|exact Hv]. unfold Logger.LOG_LEVEL in Hin. simpl in Hin.
    destruct Hin as [<-|[<-|[<-|[<-|[<-|[]]]]]]; subst v; simpl; tauto.
  - right. split; [|eexists; reflexivity].
    intros Hin. simpl in Hin.
    destruct Hin as [<-|[<-|[<-|[<-|[<-|[]]]]]].
    + apply (Hfind Logger.DEBUG); simpl; tauto.
    + apply (Hfind Logger.INFO); simpl; tauto.
    + apply (Hfind Logger.WARN); simpl; tauto.
    + apply (Hfind Logger.ERROR); simpl; tauto.
    + apply (Hfind Logger.FATAL); simpl; tauto.
Qed.


(** X19: [setLogLevelBySysProperty] succeeds exactly when the property name is
    not nil, the property has a value, [parseInt] reads an integer from it
    and that integer is one of the five level values; the level is then the
    one with that value.  When it fails before trying the level the logger
    is unchanged. *)
Theorem logger_setLogLevelBySysProperty_succeeds_iff
    (getProperty : string -> string) (parseInt : string -> option Z)
    (propertyName : JS.value) (lg : Logger.t) :
  let r := Logger.setLogLevelBySysProperty getProperty parseInt propertyName lg in
  (fst r = Normal tt <->
   JS.nil propertyName = false
   /\ getProperty (JS.to_string propertyName) <> ""
   /\ exists v, parseInt (getProperty (JS.to_string propertyName)) = Some v
                /\ In v [10000; 20000; 30000; 40000; 50000]%Z)
  /\ (fst r = Normal tt ->
      exists lvl, Logger.currentLevel (snd r) = Some lvl
                  /\ parseInt (getProperty (JS.to_string propertyName))
                     = Some (Logger.value lvl))
  /\ (JS.nil propertyName = true
      \/ getProperty (JS.to_string propertyName) = ""
      \/ parseInt (getProperty (JS.to_string propertyName)) = None ->
      snd r = lg /\ exists ex, fst r = Throw ex).
Proof.
  intros r. subst r. unfold Logger.setLogLevelBySysProperty.
  destruct (JS.nil propertyName) eqn:Hnil.
  { cbn [fst snd]. split; [|split].
    - split; [discriminate | intros [H _]; discriminate].
    - discriminate.
    - intros _. split; [reflexivity | eauto]. }
  cbv zeta. set (name := JS.to_string propertyName).
  cbn [JS.nil].
  destruct (String.eqb_spec (getProperty name) "") as [Hempty|Hval].
  { cbn [fst snd]. split; [|split].
    - split; [discriminate | intros (_ & H & _); contradiction].
    - discriminate.
    - intros _. split; [reflexivity | eauto]. }
  destruct (parseInt (getProperty name)) as [v|] eqn:Hparse.
  2:{ cbn [fst snd]. split; [|split].
      - split; [discriminate | intros (_ & _ & v & H & _); discriminate].
      - discriminate.
      - intros _. split; [reflexivity | eauto]. }
  destruct (logger_setLogLevel_run v lg) as [(lvl & Hv & Hrun)|(Hnot & ex & Hrun)];
    rewrite Hrun; cbn [fst snd Logger.currentLevel].
  - split; [|split].
    + split; [|reflexivity]. intros _. split; [reflexivity|]. split; [exact Hval|].
      exists v. split; [reflexivity|]. exact (proj1 Hv).
    + intros _. exists lvl. split; [reflexivity|]. now rewrite (proj2 Hv).
    + intros [H|[H|H]]; [discriminate | contradiction | discriminate].
  - split; [|split].
    + split; [discriminate|]. intros (_ & _ & v' & [= <-] & Hin). contradiction.
    + discriminate.
    + intros [H|[H|H]]; [discriminate | contradiction | discriminate].
Qed.

(** * Witnesses of the further properties *)


Lemma script_keeps_counter_exact_witness :
  match run_calls Examples.catalog_platform 1 MoreExamples.catalog_script
          (fresh "us") with
  | Some e' =>
      NoDup (map fst (_capturedObjectMap (this e')))
      /\ getObjectCount (this e') = length (_capturedObjectMap (this e'))
  | None => False
  end.
Proof.
  destruct (run_calls Examples.catalog_platform 1 MoreExamples.catalog_script
              (fresh "us")) as [e'|] eqn:Hrun.
  - apply (script_keeps_counter_exact Examples.catalog_platform 1
             MoreExamples.catalog_script (fresh "us") e');
      [exact names_tables_catalog | reflexivity | exact Hrun].
  - vm_compute in Hrun. discriminate Hrun.
Defined.



Lemma missing_subject_throws_witness :
  exists ex,
    run Examples.catalog_platform 1 (call_captureCatalogUIPolicy (JS.str "nope"))
      MoreExamples.view_captured
    = Some (Throw ex,
            after_query "catalog_ui_policy" [addQuery "sys_id" "nope"]
              MoreExamples.view_captured).
Proof.
  apply (missing_subject_throws Examples.catalog_platform 0
           (call_captureCatalogUIPolicy (JS.str "nope"))
           "catalog_ui_policy" [addQuery "sys_id" "nope"]
           MoreExamples.view_captured); reflexivity.
Defined.

Lemma captureServiceCatalogItem_refuses_subclasses_witness :
  exists ex,
    captureServiceCatalogItem MoreExamples.producer_platform (JS.str "rp1") (fresh "")
    = (Throw ex, after_query "sc_cat_item" [addQuery "sys_id" "rp1"] (fresh "")).
Proof.
  eexists.
  apply (captureServiceCatalogItem_refuses_subclasses MoreExamples.producer_platform
           (JS.str "rp1")
           (Store.row "sc_cat_item" "rp1"
              [("name", "Report an issue");
               ("sys_class_name", "sc_cat_item_producer")])
           (fresh "")).
  - reflexivity.
  - reflexivity.
  - discriminate.
Defined.

Lemma captureArchivalRule_returns_without_cycles_witness :
  exists c e',
    captureArchivalRule MoreExamples.chain_platform 2 (JS.str "A") (fresh "")
    = Some (c, e').
Proof.
  apply (captureArchivalRule_returns_without_cycles MoreExamples.chain_platform
           2 "A" 2 (fresh "")).
  - reflexivity.
  - lia.
Defined.


Lemma captureDataRecordsFromTable_records_the_rows_witness :
  hd_error (logged (trace (snd (captureDataRecordsFromTable Examples.commit_platform
                                  (JS.str "u_cfg") JS.undefined
                                  Examples.three_entries))))
  = Some "xSNUpdateSetBuilder.captureDataRecordsFromTable: captured 2 records".
Proof.
  apply (proj2 (proj2 (captureDataRecordsFromTable_records_the_rows
                         Examples.commit_platform (JS.str "u_cfg") JS.undefined
                         Examples.three_entries eq_refl))).
Defined.


Lemma writeUpdateSet_writes_into_one_update_set_witness :
  let e' := snd (writeUpdateSet Examples.commit_platform (JS.str "Release 1")
                   Examples.three_entries) in
  inserted (trace e') = [] /\ saved_into (trace e') = ["us_rel"; "us_rel"].
Proof.
  assert (Hreach : reaches_write_loop Examples.commit_platform (JS.str "Release 1")
                     (Store.row "sys_scope" "scope0" [("name", "global")])
                     (Store.row "sys_update_set" "us_cur"
                        [("name", "Default"); ("application", "scope0")])
                     Examples.three_entries)
    by (repeat split; reflexivity).
  exact (writeUpdateSet_writes_into_one_update_set _ _ _ _ _ Hreach).
Defined.

Lemma writeUpdateSet_warns_when_not_switched_back_witness :
  let e' := snd (writeUpdateSet Examples.commit_platform (JS.str "Release 1")
                   Examples.three_entries) in
  currentUpdateSet e' = "us_cur"
  /\ hd_error (logged (trace e')) =
     Some "writeUpdateSet: Moved back to original update set 'Default' successfully".
Proof.
  assert (Hreach : reaches_write_loop Examples.commit_platform (JS.str "Release 1")
                     (Store.row "sys_scope" "scope0" [("name", "global")])
                     (Store.row "sys_update_set" "us_cur"
                        [("name", "Default"); ("application", "scope0")])
                     Examples.three_entries)
    by (repeat split; reflexivity).
  pose proof (writeUpdateSet_warns_when_not_switched_back _ _ _ _ _ Hreach) as H.
  cbv zeta in H. destruct H as [Hcur Hlog].
  intros e'. subst e'. split.
  - rewrite Hcur. vm_compute. reflexivity.
  - rewrite Hlog, Hcur. vm_compute. reflexivity.
Defined.

Lemma writeUpdateSet_twice_writes_once_witness :
  let e1 := snd (writeUpdateSet Examples.commit_platform (JS.str "Release 1")
                   Examples.three_entries) in
  saved_records (trace (snd (writeUpdateSet Examples.commit_platform
                               (JS.str "Release 2") e1)))
  = saved_records (trace e1).
Proof.
  assert (Hreach : reaches_write_loop Examples.commit_platform (JS.str "Release 1")
                     (Store.row "sys_scope" "scope0" [("name", "global")])
                     (Store.row "sys_update_set" "us_cur"
                        [("name", "Default"); ("application", "scope0")])
                     Examples.three_entries)
    by (repeat split; reflexivity).
  exact (writeUpdateSet_twice_writes_once _ (JS.str "Release 1") (JS.str "Release 2")
           _ _ _ Hreach).
Defined.

Lemma logger_guard_matches_filter_witness :
  exists enabled,
    Logger.is_enabled Logger.SWarn Logger.new = (Normal enabled, Logger.new)
    /\ fst (Logger.log Logger.SWarn (JS.str "w") Logger.new) = Normal tt
    /\ Logger.stmtQueue (snd (Logger.log Logger.SWarn (JS.str "w") Logger.new)) =
       (if enabled
        then Logger.stmtQueue Logger.new
             ++ [Logger.statement (Logger.SWarn, JS.str "w")]
        else Logger.stmtQueue Logger.new)%list.
Proof.
  apply (logger_guard_matches_filter Logger.SWarn (JS.str "w") Logger.ERROR
           Logger.new).
  reflexivity.
Defined.

Lemma logger_flush_returns_what_passed_witness :
  fst (Logger.flush (Logger.log_all MoreExamples.five_statements Logger.new))
  = Normal ("[ERROR]: e" ++ newline ++ "[FATAL]: f").
Proof.
  apply (proj1 (logger_flush_returns_what_passed MoreExamples.five_statements
                  Logger.ERROR Logger.new eq_refl)).
Defined.


Lemma logger_setLogLevelBySysProperty_succeeds_iff_witness :
  fst (Logger.setLogLevelBySysProperty MoreExamples.properties
         MoreExamples.read_int (JS.str "log.level") Logger.new) = Normal tt.
Proof.
  apply (proj1 (logger_setLogLevelBySysProperty_succeeds_iff
                  MoreExamples.properties MoreExamples.read_int
                  (JS.str "log.level") Logger.new)).
  split; [reflexivity|]. split; [discriminate|].
  exists 20000%Z. split; [reflexivity|]. simpl. tauto.
Defined.
